(** * Change-to-event translation of the state store (package [state])

    A shallow embedding of [MsgTypeEvents], [eventsFromChanges] and
    [eventFromChange], and the properties of the event batch they build
    from the changes of one committed transaction.

    Go pointers to snapshots are locations of a heap ([gmap loc object]);
    the functions run in a state monad over that heap whose failure is a
    run-time panic (a nil or dangling dereference). *)

From stdpp Require Import base option strings countable gmap list fin_maps pretty.

Local Open Scope string_scope.
Local Open Scope list_scope.

(** ** The [structs] package: snapshots *)

Module structs.

(** Pointers into the store. *)
Definition loc := positive.

(** The snapshot structs of package [structs]; each record keeps the
    fields [eventFromChange] reads or writes. *)
Record ACLToken := { ACLToken_AccessorID : string }.
Record ACLPolicy := { ACLPolicy_Name : string }.
Record AuthMethod := { AuthMethod_Name : string }.

(** Modelled from the spec: the fields of [Node] other than [ID] are not
    named by [eventFromChange]; the spec gives a node snapshot a secret
    (credential-bearing) field, which sanitizing clears. *)
Record Node := { Node_ID : string; Node_SecretID : string }.

Record ServiceRegistration := {
  ServiceRegistration_ID : string;
  ServiceRegistration_ServiceName : string;
  ServiceRegistration_Namespace : string;
  ServiceRegistration_JobID : string }.

Record Evaluation := {
  Evaluation_ID : string;
  Evaluation_Namespace : string;
  Evaluation_JobID : string;
  Evaluation_DeploymentID : string }.

Record Job := { Job_ID : string; Job_Namespace : string }.

(** [Allocation_Job] is the pointer field [Job]; [None] is nil. *)
Record Allocation := {
  Allocation_ID : string;
  Allocation_Namespace : string;
  Allocation_JobID : string;
  Allocation_DeploymentID : string;
  Allocation_Job : option loc }.

Record Deployment := {
  Deployment_ID : string;
  Deployment_Namespace : string;
  Deployment_JobID : string }.

(** What a location of the store holds: a snapshot of one of the types
    above, or of any other type ([ObjOther]). *)
Inductive object :=
| ObjACLToken (t : ACLToken)
| ObjACLPolicy (p : ACLPolicy)
| ObjAuthMethod (m : AuthMethod)
| ObjNode (n : Node)
| ObjServiceRegistration (s : ServiceRegistration)
| ObjEvaluation (e : Evaluation)
| ObjJob (j : Job)
| ObjAllocation (a : Allocation)
| ObjDeployment (d : Deployment)
| ObjOther (type_name : string).

(** ** Write kinds, topics and event types *)

(** [MessageType]: the constants named by [MsgTypeEvents], and
    every other message type of the package under [OtherRequestType]. *)
Inductive MessageType :=
| NodeRegisterRequestType
| NodeDeregisterRequestType
| UpsertNodeEventsType
| EvalUpdateRequestType
| AllocClientUpdateRequestType
| JobRegisterRequestType
| AllocUpdateRequestType
| NodeUpdateStatusRequestType
| JobDeregisterRequestType
| JobBatchDeregisterRequestType
| AllocUpdateDesiredTransitionRequestType
| NodeUpdateEligibilityRequestType
| NodeUpdateDrainRequestType
| BatchNodeUpdateDrainRequestType
| DeploymentStatusUpdateRequestType
| DeploymentPromoteRequestType
| DeploymentAllocHealthRequestType
| ApplyPlanResultsRequestType
| ACLTokenDeleteRequestType
| ACLTokenUpsertRequestType
| ACLPolicyDeleteRequestType
| ACLPolicyUpsertRequestType
| ServiceRegistrationUpsertRequestType
| ServiceRegistrationDeleteByIDRequestType
| ServiceRegistrationDeleteByNodeIDRequestType
| OtherRequestType (code : N).

(** The event type tags [structs.Type...]; [TypeUnset] is the zero value
    of the field [Event.Type] (Go's empty string). *)
Inductive EventType :=
| TypeUnset
| TypeNodeRegistration
| TypeNodeDeregistration
| TypeNodeEvent
| TypeEvalUpdated
| TypeAllocationUpdated
| TypeJobRegistered
| TypeJobDeregistered
| TypeJobBatchDeregistered
| TypeAllocationUpdateDesiredStatus
| TypeNodeDrain
| TypeDeploymentUpdate
| TypeDeploymentPromotion
| TypeDeploymentAllocHealth
| TypePlanResult
| TypeACLTokenDeleted
| TypeACLTokenUpserted
| TypeACLPolicyDeleted
| TypeACLPolicyUpserted
| TypeServiceRegistration
| TypeServiceDeregistration.

Inductive Topic :=
| TopicACLToken
| TopicACLPolicy
| TopicAuthMethod
| TopicEvaluation
| TopicAllocation
| TopicJob
| TopicNode
| TopicDeployment
| TopicService.

(** ** Events *)

(** The payload wrappers, each holding the pointer it was built from.
    [NilPayload] is the zero value. *)
Inductive Payload :=
| NilPayload
| ACLTokenEvent (ACLToken : loc)
| ACLPolicyEvent (ACLPolicy : loc)
| AuthMethodEvent (AuthMethod : loc)
| EvaluationEvent (Evaluation : loc)
| AllocationEvent (Allocation : loc)
| JobEvent (Job : loc)
| NodeStreamEvent (Node : loc)
| DeploymentEvent (Deployment : loc)
| ServiceRegistrationStreamEvent (Service : loc).

Record Event := {
  Event_Topic : Topic;
  Event_Type : EventType;
  Event_Key : string;
  Event_Namespace : string;
  Event_FilterKeys : list string;
  Event_Index : N;
  Event_Payload : Payload }.

Record Events := { Events_Index : N; Events_Events : list Event }.

End structs.

Import structs.

#[global] Instance MessageType_eq_dec : EqDecision MessageType.
Proof. solve_decision. Defined.

Definition MessageType_code (m : MessageType) : N :=
  match m with
  | NodeRegisterRequestType => 0
  | NodeDeregisterRequestType => 1
  | UpsertNodeEventsType => 2
  | EvalUpdateRequestType => 3
  | AllocClientUpdateRequestType => 4
  | JobRegisterRequestType => 5
  | AllocUpdateRequestType => 6
  | NodeUpdateStatusRequestType => 7
  | JobDeregisterRequestType => 8
  | JobBatchDeregisterRequestType => 9
  | AllocUpdateDesiredTransitionRequestType => 10
  | NodeUpdateEligibilityRequestType => 11
  | NodeUpdateDrainRequestType => 12
  | BatchNodeUpdateDrainRequestType => 13
  | DeploymentStatusUpdateRequestType => 14
  | DeploymentPromoteRequestType => 15
  | DeploymentAllocHealthRequestType => 16
  | ApplyPlanResultsRequestType => 17
  | ACLTokenDeleteRequestType => 18
  | ACLTokenUpsertRequestType => 19
  | ACLPolicyDeleteRequestType => 20
  | ACLPolicyUpsertRequestType => 21
  | ServiceRegistrationUpsertRequestType => 22
  | ServiceRegistrationDeleteByIDRequestType => 23
  | ServiceRegistrationDeleteByNodeIDRequestType => 24
  | OtherRequestType code => 25 + code
  end%N.

Definition MessageType_of_code (n : N) : MessageType :=
  match n with
  | 0 => NodeRegisterRequestType
  | 1 => NodeDeregisterRequestType
  | 2 => UpsertNodeEventsType
  | 3 => EvalUpdateRequestType
  | 4 => AllocClientUpdateRequestType
  | 5 => JobRegisterRequestType
  | 6 => AllocUpdateRequestType
  | 7 => NodeUpdateStatusRequestType
  | 8 => JobDeregisterRequestType
  | 9 => JobBatchDeregisterRequestType
  | 10 => AllocUpdateDesiredTransitionRequestType
  | 11 => NodeUpdateEligibilityRequestType
  | 12 => NodeUpdateDrainRequestType
  | 13 => BatchNodeUpdateDrainRequestType
  | 14 => DeploymentStatusUpdateRequestType
  | 15 => DeploymentPromoteRequestType
  | 16 => DeploymentAllocHealthRequestType
  | 17 => ApplyPlanResultsRequestType
  | 18 => ACLTokenDeleteRequestType
  | 19 => ACLTokenUpsertRequestType
  | 20 => ACLPolicyDeleteRequestType
  | 21 => ACLPolicyUpsertRequestType
  | 22 => ServiceRegistrationUpsertRequestType
  | 23 => ServiceRegistrationDeleteByIDRequestType
  | 24 => ServiceRegistrationDeleteByNodeIDRequestType
  | _ => OtherRequestType (n - 25)
  end%N.

#[global] Instance MessageType_countable : Countable MessageType.
Proof.
  apply (inj_countable' MessageType_code MessageType_of_code).
  intros m.
  destruct m as [| | | | | | | | | | | | | | | | | | | | | | | | |code]; try reflexivity.
  unfold MessageType_code, MessageType_of_code.
  replace (25 + code - 25)%N with code by lia.
  destruct (25 + code)%N as [|p] eqn:E; [lia|].
  do 5 (destruct p as [p|p|]; try lia; try reflexivity).
Defined.

(** ** The store and the monad of the translation *)

Abbreviation heap := (gmap loc object).

(** A computation reads and extends the store; [None] is a panic. *)
Definition M (A : Type) : Type := heap -> option (A * heap).

Definition ret {A} (a : A) : M A := fun h => Some (a, h).

Definition bind {A B} (m : M A) (k : A -> M B) : M B :=
  fun h => match m h with
           | Some (a, h') => k a h'
           | None => None
           end.

Notation "'let*' x := m 'in' k" := (bind m (fun x => k))
  (at level 10, x name, m at level 100, k at level 200).

(** [new o] is [&T{...}]: a location the store does not use yet. *)
Definition new (o : object) : M loc :=
  fun h => let p := fresh (dom h) in Some (p, <[p := o]> h).

(** Dereference [p], expecting the variant selected by [proj]. *)
Definition load {T} (proj : object -> option T) (p : loc) : M T :=
  fun h => match h !! p with
           | Some o => match proj o with
                       | Some x => Some (x, h)
                       | None => None
                       end
           | None => None
           end.

(** Overwrite the object at [p]. *)
Definition store (p : loc) (o : object) : M unit :=
  fun h => match h !! p with
           | Some _ => Some (tt, <[p := o]> h)
           | None => None
           end.

(** [p.f]: read one field through a pointer. *)
Definition field {T F} (proj : object -> option T) (f : T -> F) (p : loc) : M F :=
  let* x := load proj p in ret (f x).

Definition to_ACLToken (o : object) : option ACLToken :=
  match o with ObjACLToken t => Some t | _ => None end.
Definition to_ACLPolicy (o : object) : option ACLPolicy :=
  match o with ObjACLPolicy p => Some p | _ => None end.
Definition to_AuthMethod (o : object) : option AuthMethod :=
  match o with ObjAuthMethod m => Some m | _ => None end.
Definition to_Node (o : object) : option Node :=
  match o with ObjNode n => Some n | _ => None end.
Definition to_ServiceRegistration (o : object) : option ServiceRegistration :=
  match o with ObjServiceRegistration s => Some s | _ => None end.
Definition to_Evaluation (o : object) : option Evaluation :=
  match o with ObjEvaluation e => Some e | _ => None end.
Definition to_Job (o : object) : option Job :=
  match o with ObjJob j => Some j | _ => None end.
Definition to_Allocation (o : object) : option Allocation :=
  match o with ObjAllocation a => Some a | _ => None end.
Definition to_Deployment (o : object) : option Deployment :=
  match o with ObjDeployment d => Some d | _ => None end.

(** A value of type [interface{}] that holds a snapshot: nil, or a
    non-nil pointer whose dynamic type is the variant of the object it
    points to. *)
Definition any := option loc.

(** The type assertion of [v] to a pointer type, in its two-result form:
    the pointer when [v] holds the variant selected by [proj], and [None]
    (ok = false) when [v] is nil or holds another type. *)
Definition type_assert {T} (proj : object -> option T) (v : any) : M (option loc) :=
  fun h => match v with
           | Some p => match h !! p with
                       | Some o => match proj o with
                                   | Some _ => Some (Some p, h)
                                   | None => Some (None, h)
                                   end
                       | None => Some (None, h)
                       end
           | None => Some (None, h)
           end.

(** Modelled from the spec: the method [Node.Sanitize] of package
    [structs], whose body is defined elsewhere. Node sanitize: produce a
    shallow copy of the node snapshot with the secret field cleared. *)
Definition Node_Sanitize (n : loc) : M loc :=
  let* x := load to_Node n in
  new (ObjNode {| Node_ID := Node_ID x; Node_SecretID := "" |}).

(** Modelled from the spec: the method [Allocation.Copy] of package
    [structs], whose body is defined elsewhere. Allocation shrink starts
    from a copy of the allocation snapshot. *)
Definition Allocation_Copy (a : loc) : M loc :=
  let* x := load to_Allocation a in
  new (ObjAllocation x).

(** [a.Job = j]: assignment to the field [Job] through the pointer [a]. *)
Definition set_Allocation_Job (a : loc) (j : option loc) : M unit :=
  let* x := load to_Allocation a in
  store a (ObjAllocation {| Allocation_ID := Allocation_ID x;
                            Allocation_Namespace := Allocation_Namespace x;
                            Allocation_JobID := Allocation_JobID x;
                            Allocation_DeploymentID := Allocation_DeploymentID x;
                            Allocation_Job := j |}).

(** Modelled from the spec: the constructor [NewACLTokenEvent] of package
    [structs], whose body is defined elsewhere. The spec gives an event a
    payload that is a tagged union, one variant per entity kind, whose
    variant tag always matches the topic: the payload of a token event is
    the token variant. The spec does not say what the variant holds; that
    the wrapper keeps the pointer it is given is a choice of this model,
    and the properties of token events below state the topic, the key,
    the namespace and the filter keys only. *)
Definition NewACLTokenEvent (token : loc) : Payload := ACLTokenEvent token.

(** ** [memdb.Change] and [Changes] *)

(** Modelled from the spec: the method [Deleted()] of [memdb.Change],
    whose body is defined in the memdb library; the spec makes [deleted] a
    boolean of the change (true: a removal, [Before] is authoritative).
    Any way of computing the flag from the change is an instance. *)
Record Change := {
  Table : string;
  Before : any;
  After : any;
  Deleted : bool }.

Record Changes := {
  Changes_Index : N;
  Changes_Changes : list Change;
  Changes_MsgType : MessageType }.

(** The composite literal [structs.Event{Topic: .., Key: .., ..}]: the
    fields it does not name ([Type], [Index]) keep their zero value. *)
Definition Event_lit (topic : Topic) (key : string) (filterKeys : list string)
    (namespace : string) (payload : Payload) : Event :=
  {| Event_Topic := topic; Event_Type := TypeUnset; Event_Key := key;
     Event_Namespace := namespace; Event_FilterKeys := filterKeys;
     Event_Index := 0; Event_Payload := payload |}.

(** [event.Type = ty; event.Index = index]. *)
Definition stamp (ty : EventType) (index : N) (event : Event) : Event :=
  {| Event_Topic := Event_Topic event; Event_Type := ty;
     Event_Key := Event_Key event; Event_Namespace := Event_Namespace event;
     Event_FilterKeys := Event_FilterKeys event; Event_Index := index;
     Event_Payload := Event_Payload event |}.

(** ** The registry *)

Definition MsgTypeEvents : gmap MessageType EventType :=
  list_to_map [
    (NodeRegisterRequestType, TypeNodeRegistration);
    (NodeDeregisterRequestType, TypeNodeDeregistration);
    (UpsertNodeEventsType, TypeNodeEvent);
    (EvalUpdateRequestType, TypeEvalUpdated);
    (AllocClientUpdateRequestType, TypeAllocationUpdated);
    (JobRegisterRequestType, TypeJobRegistered);
    (AllocUpdateRequestType, TypeAllocationUpdated);
    (NodeUpdateStatusRequestType, TypeNodeEvent);
    (JobDeregisterRequestType, TypeJobDeregistered);
    (JobBatchDeregisterRequestType, TypeJobBatchDeregistered);
    (AllocUpdateDesiredTransitionRequestType, TypeAllocationUpdateDesiredStatus);
    (NodeUpdateEligibilityRequestType, TypeNodeDrain);
    (NodeUpdateDrainRequestType, TypeNodeDrain);
    (BatchNodeUpdateDrainRequestType, TypeNodeDrain);
    (DeploymentStatusUpdateRequestType, TypeDeploymentUpdate);
    (DeploymentPromoteRequestType, TypeDeploymentPromotion);
    (DeploymentAllocHealthRequestType, TypeDeploymentAllocHealth);
    (ApplyPlanResultsRequestType, TypePlanResult);
    (ACLTokenDeleteRequestType, TypeACLTokenDeleted);
    (ACLTokenUpsertRequestType, TypeACLTokenUpserted);
    (ACLPolicyDeleteRequestType, TypeACLPolicyDeleted);
    (ACLPolicyUpsertRequestType, TypeACLPolicyUpserted);
    (ServiceRegistrationUpsertRequestType, TypeServiceRegistration);
    (ServiceRegistrationDeleteByIDRequestType, TypeServiceDeregistration);
    (ServiceRegistrationDeleteByNodeIDRequestType, TypeServiceDeregistration)
  ].

(** ** The translation *)

Section Translate.

(** The read transaction handed to [eventsFromChanges], which does not
    use it. *)
Variable ReadTxn : Type.

(** The name of the service registration table, a constant of package
    [state] whose value is defined with the table schemas. *)
Variable TableServiceRegistrations : string.

Definition eventFromChange (change : Change) : M (option Event) :=
  if Deleted change then
    if String.eqb (Table change) "acl_token" then
      let* before := type_assert to_ACLToken (Before change) in
      match before with
      | None => ret None
      | Some before =>
          let* key := field to_ACLToken ACLToken_AccessorID before in
          ret (Some (Event_lit TopicACLToken key [] "" (NewACLTokenEvent before)))
      end
    else if String.eqb (Table change) "acl_policy" then
      let* before := type_assert to_ACLPolicy (Before change) in
      match before with
      | None => ret None
      | Some before =>
          let* key := field to_ACLPolicy ACLPolicy_Name before in
          ret (Some (Event_lit TopicACLPolicy key [] "" (ACLPolicyEvent before)))
      end
    else if String.eqb (Table change) "nodes" then
      let* before := type_assert to_Node (Before change) in
      match before with
      | None => ret None
      | Some before =>
          let* before := Node_Sanitize before in
          let* key := field to_Node Node_ID before in
          ret (Some (Event_lit TopicNode key [] "" (NodeStreamEvent before)))
      end
    else if String.eqb (Table change) TableServiceRegistrations then
      let* before := type_assert to_ServiceRegistration (Before change) in
      match before with
      | None => ret None
      | Some before =>
          let* key := field to_ServiceRegistration ServiceRegistration_ID before in
          let* jobID := field to_ServiceRegistration ServiceRegistration_JobID before in
          let* serviceName :=
            field to_ServiceRegistration ServiceRegistration_ServiceName before in
          let* namespace :=
            field to_ServiceRegistration ServiceRegistration_Namespace before in
          ret (Some (Event_lit TopicService key [jobID; serviceName] namespace
                       (ServiceRegistrationStreamEvent before)))
      end
    else ret None
  else
    if String.eqb (Table change) "acl_token" then
      let* after := type_assert to_ACLToken (After change) in
      match after with
      | None => ret None
      | Some after =>
          let* key := field to_ACLToken ACLToken_AccessorID after in
          ret (Some (Event_lit TopicACLToken key [] "" (NewACLTokenEvent after)))
      end
    else if String.eqb (Table change) "acl_policy" then
      let* after := type_assert to_ACLPolicy (After change) in
      match after with
      | None => ret None
      | Some after =>
          let* key := field to_ACLPolicy ACLPolicy_Name after in
          ret (Some (Event_lit TopicACLPolicy key [] "" (ACLPolicyEvent after)))
      end
    else if String.eqb (Table change) "auth_method" then
      let* after := type_assert to_AuthMethod (After change) in
      match after with
      | None => ret None
      | Some after =>
          let* key := field to_AuthMethod AuthMethod_Name after in
          ret (Some (Event_lit TopicAuthMethod key [] "" (AuthMethodEvent after)))
      end
    else if String.eqb (Table change) "evals" then
      let* after := type_assert to_Evaluation (After change) in
      match after with
      | None => ret None
      | Some after =>
          let* key := field to_Evaluation Evaluation_ID after in
          let* jobID := field to_Evaluation Evaluation_JobID after in
          let* deploymentID := field to_Evaluation Evaluation_DeploymentID after in
          let* namespace := field to_Evaluation Evaluation_Namespace after in
          ret (Some (Event_lit TopicEvaluation key [jobID; deploymentID] namespace
                       (EvaluationEvent after)))
      end
    else if String.eqb (Table change) "allocs" then
      let* after := type_assert to_Allocation (After change) in
      match after with
      | None => ret None
      | Some after =>
          let* alloc := Allocation_Copy after in
          let* jobID := field to_Allocation Allocation_JobID alloc in
          let* deploymentID := field to_Allocation Allocation_DeploymentID alloc in
          let filterKeys := [jobID; deploymentID] in
          (* remove job info to help keep size of alloc event down *)
          let* _ := set_Allocation_Job alloc None in
          let* key := field to_Allocation Allocation_ID after in
          let* namespace := field to_Allocation Allocation_Namespace after in
          ret (Some (Event_lit TopicAllocation key filterKeys namespace
                       (AllocationEvent alloc)))
      end
    else if String.eqb (Table change) "jobs" then
      let* after := type_assert to_Job (After change) in
      match after with
      | None => ret None
      | Some after =>
          let* key := field to_Job Job_ID after in
          let* namespace := field to_Job Job_Namespace after in
          ret (Some (Event_lit TopicJob key [] namespace (JobEvent after)))
      end
    else if String.eqb (Table change) "nodes" then
      let* after := type_assert to_Node (After change) in
      match after with
      | None => ret None
      | Some after =>
          let* after := Node_Sanitize after in
          let* key := field to_Node Node_ID after in
          ret (Some (Event_lit TopicNode key [] "" (NodeStreamEvent after)))
      end
    else if String.eqb (Table change) "deployment" then
      let* after := type_assert to_Deployment (After change) in
      match after with
      | None => ret None
      | Some after =>
          let* key := field to_Deployment Deployment_ID after in
          let* namespace := field to_Deployment Deployment_Namespace after in
          let* jobID := field to_Deployment Deployment_JobID after in
          ret (Some (Event_lit TopicDeployment key [jobID] namespace
                       (DeploymentEvent after)))
      end
    else if String.eqb (Table change) TableServiceRegistrations then
      let* after := type_assert to_ServiceRegistration (After change) in
      match after with
      | None => ret None
      | Some after =>
          let* key := field to_ServiceRegistration ServiceRegistration_ID after in
          let* jobID := field to_ServiceRegistration ServiceRegistration_JobID after in
          let* serviceName :=
            field to_ServiceRegistration ServiceRegistration_ServiceName after in
          let* namespace :=
            field to_ServiceRegistration ServiceRegistration_Namespace after in
          ret (Some (Event_lit TopicService key [jobID; serviceName] namespace
                       (ServiceRegistrationStreamEvent after)))
      end
    else ret None.

(** The loop [for _, change := range changes.Changes] of
    [eventsFromChanges]; [events] is the slice built so far. *)
Fixpoint range_Changes (eventType : EventType) (index : N)
    (changes : list Change) (events : list Event) : M (list Event) :=
  match changes with
  | [] => ret events
  | change :: rest =>
      let* r := eventFromChange change in
      match r with
      | Some event =>
          range_Changes eventType index rest (events ++ [stamp eventType index event])
      | None => range_Changes eventType index rest events
      end
  end.

(** [None] is the nil batch. *)
Definition eventsFromChanges (tx : ReadTxn) (changes : Changes) : M (option Events) :=
  match MsgTypeEvents !! Changes_MsgType changes with
  | None => ret None
  | Some eventType =>
      let* events :=
        range_Changes eventType (Changes_Index changes) (Changes_Changes changes) [] in
      ret (Some {| Events_Index := Changes_Index changes; Events_Events := events |})
  end.

End Translate.

Arguments eventsFromChanges {ReadTxn} TableServiceRegistrations tx changes _.

(** The snapshot the change is about: [Before] on the delete path,
    [After] on the upsert path. *)
Definition authoritative (change : Change) : any :=
  if Deleted change then Before change else After change.

(** The table whose rows are snapshots of the variant of [o]. *)
Definition table_of (TableServiceRegistrations : string) (o : object) : option string :=
  match o with
  | ObjACLToken _ => Some "acl_token"
  | ObjACLPolicy _ => Some "acl_policy"
  | ObjAuthMethod _ => Some "auth_method"
  | ObjNode _ => Some "nodes"
  | ObjServiceRegistration _ => Some TableServiceRegistrations
  | ObjEvaluation _ => Some "evals"
  | ObjJob _ => Some "jobs"
  | ObjAllocation _ => Some "allocs"
  | ObjDeployment _ => Some "deployment"
  | ObjOther _ => None
  end.

(** The tables [eventFromChange] dispatches on. *)
Definition dispatch_tables (TableServiceRegistrations : string) : list string :=
  ["acl_token"; "acl_policy"; "auth_method"; "evals"; "allocs"; "jobs";
   "nodes"; "deployment"; TableServiceRegistrations].

(** The string literals among the cases of the two switches. A switch of
    Go has no two cases with one constant, so [TableServiceRegistrations]
    is none of them. *)
Definition literal_tables : list string :=
  ["acl_token"; "acl_policy"; "auth_method"; "evals"; "allocs"; "jobs";
   "nodes"; "deployment"].

(** The allocation with its [Job] field cleared. *)
Definition without_Job (a : Allocation) : Allocation :=
  {| Allocation_ID := Allocation_ID a;
     Allocation_Namespace := Allocation_Namespace a;
     Allocation_JobID := Allocation_JobID a;
     Allocation_DeploymentID := Allocation_DeploymentID a;
     Allocation_Job := None |}.

(** The changes the classifier drops by rule: the table is none of the
    dispatched ones, or the authoritative snapshot is absent, or it is a
    snapshot of another table's type. *)
Definition dropped (TableServiceRegistrations : string) (h : heap) (change : Change) : Prop :=
  Table change ∉ dispatch_tables TableServiceRegistrations \/
  authoritative change = None \/
  exists p o, authoritative change = Some p /\ h !! p = Some o /\
              table_of TableServiceRegistrations o <> Some (Table change).

(** [e] is the stamped event of classifying [c] in a store that extends [h]. *)
Definition classified_in (TableServiceRegistrations : string) (h : heap)
    (ty : EventType) (index : N)
    (c : Change) (e : Event) : Prop :=
  exists h1 h2 e0, h ⊆ h1 /\ eventFromChange TableServiceRegistrations c h1 = Some (Some e0, h2) /\ e = stamp ty index e0.

(** ** A sample store and sample transactions *)

Module Sample.

Definition service_registrations : string := "service_registrations".

Definition alloc1 : Allocation :=
  {| Allocation_ID := "a1"; Allocation_Namespace := "default";
     Allocation_JobID := "web"; Allocation_DeploymentID := "d1";
     Allocation_Job := Some 2%positive |}.

Definition node1 : Node := {| Node_ID := "n1"; Node_SecretID := "s3cr3t" |}.

Definition service1 : ServiceRegistration :=
  {| ServiceRegistration_ID := "svc1"; ServiceRegistration_ServiceName := "redis";
     ServiceRegistration_Namespace := "default"; ServiceRegistration_JobID := "web" |}.

(** Locations 1 to 6: an allocation that embeds the job at 2, a node with
    a secret, a token, a policy and a service registration. *)
Definition store : heap :=
  list_to_map [
    (1%positive, ObjAllocation alloc1);
    (2%positive, ObjJob {| Job_ID := "web"; Job_Namespace := "default" |});
    (3%positive, ObjNode node1);
    (4%positive, ObjACLToken {| ACLToken_AccessorID := "acc1" |});
    (5%positive, ObjACLPolicy {| ACLPolicy_Name := "readonly" |});
    (6%positive, ObjServiceRegistration service1)
  ].

Definition upsert (table : string) (p : loc) : Change :=
  {| Table := table; Before := None; After := Some p; Deleted := false |}.

Definition delete (table : string) (p : loc) : Change :=
  {| Table := table; Before := Some p; After := None; Deleted := true |}.

(** An allocation update whose second change sits on table "jobs" with a
    node as its after value. *)
Definition alloc_update : Changes :=
  {| Changes_Index := 7;
     Changes_Changes :=
       [upsert "allocs" 1%positive; upsert "jobs" 3%positive; delete "nodes" 3%positive];
     Changes_MsgType := AllocUpdateRequestType |}.

(** The same changes under a write kind the registry does not map. *)
Definition unmapped_update : Changes :=
  {| Changes_Index := 8;
     Changes_Changes := Changes_Changes alloc_update;
     Changes_MsgType := OtherRequestType 0 |}.

End Sample.

(** ** Readings of an event and of a change *)

(** The topic each payload wrapper belongs to. *)
Definition topic_of_payload (payload : Payload) : option Topic :=
  match payload with
  | NilPayload => None
  | ACLTokenEvent _ => Some TopicACLToken
  | ACLPolicyEvent _ => Some TopicACLPolicy
  | AuthMethodEvent _ => Some TopicAuthMethod
  | EvaluationEvent _ => Some TopicEvaluation
  | AllocationEvent _ => Some TopicAllocation
  | JobEvent _ => Some TopicJob
  | NodeStreamEvent _ => Some TopicNode
  | DeploymentEvent _ => Some TopicDeployment
  | ServiceRegistrationStreamEvent _ => Some TopicService
  end.

(** The pointer a payload wrapper holds. *)
Definition payload_pointer (payload : Payload) : option loc :=
  match payload with
  | NilPayload => None
  | ACLTokenEvent p | ACLPolicyEvent p | AuthMethodEvent p | EvaluationEvent p
  | AllocationEvent p | JobEvent p | NodeStreamEvent p | DeploymentEvent p
  | ServiceRegistrationStreamEvent p => Some p
  end.

(** Whether [eventFromChange] gives an event for [change] in the store [h]. *)
Definition classifies (TableServiceRegistrations : string) (h : heap)
    (change : Change) : bool :=
  match eventFromChange TableServiceRegistrations change h with
  | Some (Some _, _) => true
  | _ => false
  end.

(** The tables the delete path dispatches on. *)
Definition delete_tables (TableServiceRegistrations : string) : list string :=
  ["acl_token"; "acl_policy"; "nodes"; TableServiceRegistrations].

(** The rule of the dispatch, read without running it: the authoritative
    snapshot is a stored object of the type of the change's table, and on
    the delete path the table is one of [delete_tables]. *)
Definition classifiable (TableServiceRegistrations : string) (h : heap)
    (change : Change) : Prop :=
  exists p o,
    authoritative change = Some p /\ h !! p = Some o /\
    table_of TableServiceRegistrations o = Some (Table change) /\
    (Deleted change = true -> Table change ∈ delete_tables TableServiceRegistrations).

(** The authoritative snapshot of the change, when it is not nil, is an
    object of the store (Go has no dangling pointer). *)
Definition allocated (h : heap) (change : Change) : Prop :=
  forall p, authoritative change = Some p -> is_Some (h !! p).

(** What every event of the classifier looks like. *)
Definition well_shaped (change : Change) (h h' : heap) (e : Event) : Prop :=
  topic_of_payload (Event_Payload e) = Some (Event_Topic e) /\
  (Table change <> "nodes" -> Table change <> "allocs" ->
   h' = h /\ payload_pointer (Event_Payload e) = authoritative change).

(** A store with a snapshot of every table but the node and allocation
    tables, and a transaction that changes each of them once and holds one
    change of the wrong type. *)
Module Sample3.

Definition store : heap :=
  list_to_map [
    (1%positive, ObjEvaluation {| Evaluation_ID := "e1"; Evaluation_Namespace := "default";
                                  Evaluation_JobID := "web"; Evaluation_DeploymentID := "d1" |});
    (2%positive, ObjJob {| Job_ID := "web"; Job_Namespace := "default" |});
    (3%positive, ObjDeployment {| Deployment_ID := "d1"; Deployment_Namespace := "default";
                                  Deployment_JobID := "web" |});
    (4%positive, ObjAuthMethod {| AuthMethod_Name := "oidc" |});
    (5%positive, ObjACLPolicy {| ACLPolicy_Name := "readonly" |});
    (6%positive, ObjServiceRegistration Sample.service1);
    (7%positive, ObjACLToken {| ACLToken_AccessorID := "acc1" |})
  ].

Definition changes : list Change :=
  [Sample.upsert "jobs" 2%positive;
   Sample.upsert "evals" 1%positive;
   Sample.upsert "jobs" 1%positive;
   Sample.upsert "deployment" 3%positive;
   Sample.upsert "auth_method" 4%positive;
   Sample.delete "acl_policy" 5%positive;
   Sample.delete Sample.service_registrations 6%positive].

Definition job_register : Changes :=
  {| Changes_Index := 12;
     Changes_Changes := changes;
     Changes_MsgType := JobRegisterRequestType |}.

End Sample3.

(** A store with a snapshot of each of the upsert-only tables. *)
Module Sample2.

Definition eval1 : Evaluation :=
  {| Evaluation_ID := "e1"; Evaluation_Namespace := "default";
     Evaluation_JobID := "web"; Evaluation_DeploymentID := "d1" |}.

Definition job1 : Job := {| Job_ID := "web"; Job_Namespace := "default" |}.

Definition deployment1 : Deployment :=
  {| Deployment_ID := "d1"; Deployment_Namespace := "default";
     Deployment_JobID := "web" |}.

Definition method1 : AuthMethod := {| AuthMethod_Name := "oidc" |}.

Definition store : heap :=
  list_to_map [
    (1%positive, ObjEvaluation eval1);
    (2%positive, ObjJob job1);
    (3%positive, ObjDeployment deployment1);
    (4%positive, ObjAuthMethod method1);
    (5%positive, ObjNode Sample.node1)
  ].

Definition job_register : Changes :=
  {| Changes_Index := 11;
     Changes_Changes :=
       [Sample.upsert "jobs" 2%positive; Sample.upsert "evals" 1%positive];
     Changes_MsgType := JobRegisterRequestType |}.

End Sample2.

(** * The command [tls cert create] (package [command]) *)

Module tls.

(** The fields of the command that the flags set. *)
Record TLSCertCreateCommand := {
  dnsNames : list string;
  ipAddresses : list string;
  ca : string;
  cli : bool;
  client : bool;
  key : string;
  days : Z;
  cluster_region : string;
  domain : string;
  node : string;
  server : bool }.

Inductive ExtKeyUsage := ExtKeyUsageServerAuth | ExtKeyUsageClientAuth.

(** What a call of a library returns: its value, or the text of its error. *)
Inductive result (A : Type) :=
| Ok (a : A)
| Err (msg : string).
Arguments Ok {A} a.
Arguments Err {A} msg.

(** The libraries and helpers [Run] calls and the file system it runs on:
    [net.ParseIP], [strings.TrimSpace], [commandErrorText], the helper
    [fileDoesNotExist], [os.ReadFile], and [ParseSigner], [GenerateCert]
    and [Verify] of [tlsutil], and [file.WriteAtomicWithPerms]. *)
Record Host := {
  IP : Type;
  Signer : Type;
  ParseIP : string -> IP;
  TrimSpace : string -> string;
  commandErrorText : string;
  fileDoesNotExist : string -> bool;
  ReadFile : string -> result string;
  ParseSigner : string -> result Signer;
  GenerateCert :
    Signer -> string -> string -> Z -> list string -> list IP -> list ExtKeyUsage ->
    result (string * string);
  Verify : string -> string -> string -> option string;
  WriteAtomicWithPerms : string -> string -> N -> N -> option string }.

(** [tlsutil.CertOpts]. *)
Record CertOpts (host : Host) := {
  CertOpts_Signer : Signer host;
  CertOpts_CA : string;
  CertOpts_Name : string;
  CertOpts_Days : Z;
  CertOpts_DNSNames : list string;
  CertOpts_IPAddresses : list (IP host);
  CertOpts_ExtKeyUsage : list ExtKeyUsage }.
Arguments CertOpts_Signer {host} _.
Arguments CertOpts_CA {host} _.
Arguments CertOpts_Name {host} _.
Arguments CertOpts_Days {host} _.
Arguments CertOpts_DNSNames {host} _.
Arguments CertOpts_IPAddresses {host} _.
Arguments CertOpts_ExtKeyUsage {host} _.

(** What [Run] does to the outside, in the order it does it: the messages
    it hands to the Ui, the files it reads and writes, and the certificate
    it asks for. *)
Inductive action (host : Host) :=
| Ui_Error (msg : string)
| Ui_Info (msg : string)
| Ui_Output (msg : string)
| Read (name : string)
| Generate (opts : CertOpts host)
| Write (name data : string) (dirPerm filePerm : N).
Arguments Ui_Error {host} msg.
Arguments Ui_Info {host} msg.
Arguments Ui_Output {host} msg.
Arguments Read {host} name.
Arguments Generate {host} opts.
Arguments Write {host} name data dirPerm filePerm.

(** [strings.Replace old new s] with the count 1: the first instance of
    [old] in [s] is replaced by [new]. *)
Fixpoint strip_prefix (pre s : string) : option string :=
  match pre, s with
  | EmptyString, _ => Some s
  | String a pre', String b s' => if Ascii.eqb a b then strip_prefix pre' s' else None
  | String _ _, EmptyString => None
  end.

Fixpoint Replace1 (s old new : string) : string :=
  match strip_prefix old s with
  | Some rest => new +:+ rest
  | None =>
      match s with
      | EmptyString => EmptyString
      | String a s' => String a (Replace1 s' old new)
      end
  end.

(** Whether [old] occurs in [s]. *)
Fixpoint contains (s old : string) : bool :=
  match strip_prefix old s with
  | Some _ => true
  | None =>
      match s with
      | EmptyString => false
      | String _ s' => contains s' old
      end
  end.

Section Command.

Context (host : Host).

(** A step of [Run]: it extends the trace and either goes on with a value
    or returns an exit code. *)
Definition Cmd (A : Type) : Type := list (action host) -> (Z + A) * list (action host).

Definition ret {A} (a : A) : Cmd A := fun t => (inr a, t).

Definition exit {A} (code : Z) : Cmd A := fun t => (inl code, t).

Definition bind {A B} (m : Cmd A) (k : A -> Cmd B) : Cmd B :=
  fun t => match m t with
           | (inr a, t') => k a t'
           | (inl code, t') => (inl code, t')
           end.

Notation "'let!' x := m 'in' k" := (bind m (fun x => k))
  (at level 10, x name, m at level 100, k at level 200).

Definition emit (a : action host) : Cmd unit := fun t => (inr tt, t ++ [a]).

(** A call of a library that can fail: on an error the message built by
    [report] goes to [Ui.Error] and [Run] returns 1. *)
Definition try {A} (r : result A) (report : string -> string) : Cmd A :=
  match r with
  | Ok a => ret a
  | Err msg => let! _ := emit (Ui_Error (report msg)) in exit 1
  end.

Definition try_unit (r : option string) : Cmd unit :=
  match r with
  | None => ret tt
  | Some msg => let! _ := emit (Ui_Error msg) in exit 1
  end.

(** The checks on the arguments and the flags. *)
Definition check_flags (c : TLSCertCreateCommand) (args : list string) : Cmd unit :=
  let l := Z.of_nat (length args) in
  if (l <? 0)%Z || (1 <? l)%Z then
    let! _ := emit (Ui_Error "This command takes up to one argument") in
    let! _ := emit (Ui_Error (commandErrorText host)) in
    exit 1
  else if String.eqb (ca c) "" then
    let! _ := emit (Ui_Error "Please provide the ca") in
    exit 1
  else if String.eqb (key c) "" then
    let! _ := emit (Ui_Error "Please provide the key") in
    exit 1
  else if negb ((server c && negb (client c) && negb (cli c)) ||
                (negb (server c) && client c && negb (cli c)) ||
                (negb (server c) && negb (client c) && cli c)) then
    let! _ := emit (Ui_Error "Please provide either -server, -client, or -cli") in
    exit 1
  else if negb (String.eqb (node c) "") && negb (server c) then
    let! _ := emit (Ui_Error "-node requires -server") in
    exit 1
  else ret tt.

(** The values [Run] computes from the role of the certificate. *)
Record settings := {
  settings_name : string;
  settings_prefix : string;
  settings_DNSNames : list string;
  settings_IPAddresses : list (IP host);
  settings_extKeyUsage : list ExtKeyUsage }.

Definition role_settings (c : TLSCertCreateCommand) : Cmd settings :=
  let DNSNames :=
    foldl (fun DNSNames d =>
             if (0 <? String.length d)%nat then DNSNames ++ [TrimSpace host d]
             else DNSNames) [] (dnsNames c) in
  let IPAddresses :=
    foldl (fun IPAddresses i =>
             if (0 <? String.length i)%nat
             then IPAddresses ++ [ParseIP host (TrimSpace host i)]
             else IPAddresses) [] (ipAddresses c) in
  if server c then
    let name := "server." +:+ cluster_region c +:+ "." +:+ domain c in
    let DNSNames :=
      if negb (String.eqb (node c) "") then
        DNSNames ++ [node c +:+ ".server." +:+ cluster_region c +:+ "." +:+ domain c]
      else DNSNames in
    let DNSNames := DNSNames ++ [name] in
    let DNSNames := DNSNames ++ ["localhost"] in
    let IPAddresses := IPAddresses ++ [ParseIP host "127.0.0.1"] in
    ret {| settings_name := name;
           settings_prefix := cluster_region c +:+ "-server-" +:+ domain c;
           settings_DNSNames := DNSNames;
           settings_IPAddresses := IPAddresses;
           settings_extKeyUsage := [ExtKeyUsageServerAuth; ExtKeyUsageClientAuth] |}
  else if client c then
    let name := "client." +:+ cluster_region c +:+ "." +:+ domain c in
    ret {| settings_name := name;
           settings_prefix := cluster_region c +:+ "-client-" +:+ domain c;
           settings_DNSNames := DNSNames ++ [name; "localhost"];
           settings_IPAddresses := IPAddresses ++ [ParseIP host "127.0.0.1"];
           settings_extKeyUsage := [ExtKeyUsageClientAuth; ExtKeyUsageServerAuth] |}
  else if cli c then
    let name := "cli." +:+ cluster_region c +:+ "." +:+ domain c in
    ret {| settings_name := name;
           settings_prefix := cluster_region c +:+ "-cli-" +:+ domain c;
           settings_DNSNames := [name; "localhost"];
           settings_IPAddresses := IPAddresses;
           settings_extKeyUsage := [] |}
  else
    let! _ := emit (Ui_Error "Neither client, cli nor server - should not happen") in
    exit 1.

Definition cert_name (prefix : string) (i : N) : string :=
  prefix +:+ "-" +:+ pretty i +:+ ".pem".

Definition key_name (prefix : string) (i : N) : string :=
  prefix +:+ "-" +:+ pretty i +:+ "-key.pem".

(** Whether both file names of the index [i] are free. *)
Definition both_free (prefix : string) (i : N) : bool :=
  fileDoesNotExist host (cert_name prefix i) && fileDoesNotExist host (key_name prefix i).

(** The loop [for i := 0; i <= max; i++] from the index [i] on, with
    [remaining = max - i]: the first index whose two file names are both
    free, or [None] when the loop reaches [i == max] without one. *)
Fixpoint find_names (prefix : string) (remaining : nat) (i : N) : option (string * string) :=
  let tmpCert := cert_name prefix i in
  let tmpPk := key_name prefix i in
  if fileDoesNotExist host tmpCert && fileDoesNotExist host tmpPk then
    Some (tmpCert, tmpPk)
  else
    match remaining with
    | O => None
    | S remaining' => find_names prefix remaining' (i + 1)
    end.

Definition max : nat := N.to_nat 10000.

Definition server_warning : string :=
"==> WARNING: Server Certificates grants authority to become a
    server and access all state in the cluster including root keys
    and all ACL tokens. Do not distribute them to production hosts
    that are not server nodes. Store them as securely as CA keys.".

(** [Run] once the flags are parsed into [c] and [args] are the arguments
    that are left. *)
Definition Run_parsed (c : TLSCertCreateCommand) (args : list string) : Cmd Z :=
  let! _ := check_flags c args in
  let! s := role_settings c in
  let name := settings_name s in
  let prefix := settings_prefix s in
  let! names :=
    match find_names prefix max 0 with
    | Some names => ret names
    | None =>
        let! _ := emit (Ui_Error "Could not find a filename that doesn't already exist") in
        exit 1
    end in
  let certFileName := fst names in
  let pkFileName := snd names in
  let caFile := Replace1 (ca c) "#DOMAIN#" (domain c) in
  let keyFile := Replace1 (key c) "#DOMAIN#" (domain c) in
  let! _ := emit (Read caFile) in
  let! cert := try (ReadFile host caFile) (fun err => "Error reading CA: " +:+ err) in
  let! _ := emit (Read keyFile) in
  let! caKey := try (ReadFile host keyFile) (fun err => "Error reading CA key: " +:+ err) in
  let! _ := if server c then emit (Ui_Info server_warning) else ret tt in
  let! _ := emit (Ui_Info ("==> Using CA file " +:+ caFile +:+ " and CA key " +:+ keyFile)) in
  let! signer := try (ParseSigner host caKey) (fun err => err) in
  let opts :=
    {| CertOpts_Signer := signer; CertOpts_CA := cert; CertOpts_Name := name;
       CertOpts_Days := days c; CertOpts_DNSNames := settings_DNSNames s;
       CertOpts_IPAddresses := settings_IPAddresses s;
       CertOpts_ExtKeyUsage := settings_extKeyUsage s |} in
  let! _ := emit (Generate opts) in
  let! pair :=
    try (GenerateCert host signer cert name (days c) (settings_DNSNames s)
           (settings_IPAddresses s) (settings_extKeyUsage s)) (fun err => err) in
  let pub := fst pair in
  let priv := snd pair in
  let! _ := try_unit (Verify host cert pub name) in
  (* 0755 and 0666 *)
  let! _ := emit (Write certFileName pub 493 438) in
  let! _ := try_unit (WriteAtomicWithPerms host certFileName pub 493 438) in
  let! _ :=
    if server c then emit (Ui_Output ("==> Server Certificate saved to " +:+ certFileName))
    else if client c then emit (Ui_Output ("==> Client Certificate saved to " +:+ certFileName))
    else if cli c then emit (Ui_Output ("==> Cli Certificate saved to " +:+ certFileName))
    else ret tt in
  (* 0755 and 0600 *)
  let! _ := emit (Write pkFileName priv 493 384) in
  let! _ := try_unit (WriteAtomicWithPerms host pkFileName priv 493 384) in
  let! _ :=
    if server c then emit (Ui_Output ("==> Server Certificate key saved to " +:+ pkFileName))
    else if client c then emit (Ui_Output ("==> Client Certificate key saved to " +:+ pkFileName))
    else if cli c then emit (Ui_Output ("==> Cli Certificate key saved to " +:+ pkFileName))
    else ret tt in
  ret 0%Z.

(** The exit code and the trace of a run. *)
Definition run (c : TLSCertCreateCommand) (args : list string) : Z * list (action host) :=
  match Run_parsed c args [] with
  | (inl code, t) => (code, t)
  | (inr code, t) => (code, t)
  end.

(** The guards of [check_flags], read as one condition. *)
Definition valid (c : TLSCertCreateCommand) (args : list string) : bool :=
  bool_decide (length args <= 1)%nat &&
  negb (String.eqb (ca c) "") &&
  negb (String.eqb (key c) "") &&
  ((server c && negb (client c) && negb (cli c)) ||
   (negb (server c) && client c && negb (cli c)) ||
   (negb (server c) && negb (client c) && cli c)) &&
  (String.eqb (node c) "" || server c).

(** The additional DNS names and IP addresses of the flags: the empty ones
    dropped, the others trimmed, in the order given. *)
Definition additional_names (c : TLSCertCreateCommand) : list string :=
  TrimSpace host <$> filter (fun d => d <> "") (dnsNames c).

Definition additional_ips (c : TLSCertCreateCommand) : list (IP host) :=
  (fun i => ParseIP host (TrimSpace host i)) <$> filter (fun i => i <> "") (ipAddresses c).

(** The role of the certificate, as the file and host names spell it. *)
Definition role (c : TLSCertCreateCommand) : string :=
  if server c then "server" else if client c then "client" else "cli".

Definition is_write (a : action host) : bool :=
  match a with Write _ _ _ _ => true | _ => false end.

Definition is_read (a : action host) : bool :=
  match a with Read _ => true | _ => false end.

Definition is_error (a : action host) : bool :=
  match a with Ui_Error _ => true | _ => false end.

End Command.

Arguments settings_name {host} _.
Arguments settings_prefix {host} _.
Arguments settings_DNSNames {host} _.
Arguments settings_IPAddresses {host} _.
Arguments settings_extKeyUsage {host} _.

(** A host whose files do not exist yet apart from the first client pair,
    whose CA files read as "CA" and "KEY", and whose key writes fail. *)
Definition sample_host : Host :=
  {| IP := string;
     Signer := string;
     ParseIP := fun s => s;
     TrimSpace := fun s => s;
     commandErrorText := "For additional help try 'nomad tls cert create -help'";
     fileDoesNotExist := fun name => negb (String.eqb name "global-client-nomad-0.pem");
     ReadFile := fun name =>
       if String.eqb name "nomad-agent-ca.pem" then Ok "CA"
       else if String.eqb name "nomad-agent-ca-key.pem" then Ok "KEY"
       else Err "no such file";
     ParseSigner := fun data => Ok data;
     GenerateCert := fun signer cert name days dns ips eku => Ok ("PUB", "PRIV");
     Verify := fun cert pub name => None;
     WriteAtomicWithPerms := fun name data dirPerm filePerm =>
       if (filePerm =? 384)%N then Some "disk full" else None |}.

(** The sample host with every file name taken. *)
Definition full_host : Host :=
  {| IP := string;
     Signer := string;
     ParseIP := fun s => s;
     TrimSpace := fun s => s;
     commandErrorText := commandErrorText sample_host;
     fileDoesNotExist := fun name => false;
     ReadFile := ReadFile sample_host;
     ParseSigner := fun data => Ok data;
     GenerateCert := fun signer cert name days dns ips eku => Ok ("PUB", "PRIV");
     Verify := fun cert pub name => None;
     WriteAtomicWithPerms := fun name data dirPerm filePerm => None |}.

(** The command as the flags leave it by default, with one role chosen. *)
Definition defaults (server client cli : bool) : TLSCertCreateCommand :=
  {| dnsNames := []; ipAddresses := [];
     ca := "#DOMAIN#-agent-ca.pem"; cli := cli; client := client;
     key := "#DOMAIN#-agent-ca-key.pem"; days := 365;
     cluster_region := "global"; domain := "nomad"; node := ""; server := server |}.

(** A cli certificate, and a server certificate with a node name, each
    with two additional DNS names (one of them empty) and one additional
    IP address. *)
Definition cli_with_names : TLSCertCreateCommand :=
  {| dnsNames := ["extra.example"; ""]; ipAddresses := ["10.0.0.1"];
     ca := "#DOMAIN#-agent-ca.pem"; cli := true; client := false;
     key := "#DOMAIN#-agent-ca-key.pem"; days := 365;
     cluster_region := "global"; domain := "nomad"; node := ""; server := false |}.

Definition server_with_names : TLSCertCreateCommand :=
  {| dnsNames := ["extra.example"; ""]; ipAddresses := ["10.0.0.1"];
     ca := "#DOMAIN#-agent-ca.pem"; cli := false; client := false;
     key := "#DOMAIN#-agent-ca-key.pem"; days := 30;
     cluster_region := "global"; domain := "nomad"; node := "n1"; server := true |}.

(** A client certificate from a CA given by plain paths. *)
Definition client_with_paths : TLSCertCreateCommand :=
  {| dnsNames := []; ipAddresses := [];
     ca := "nomad-agent-ca.pem"; cli := false; client := true;
     key := "nomad-agent-ca-key.pem"; days := 365;
     cluster_region := "global"; domain := "nomad"; node := ""; server := false |}.

End tls.

(** ** The monad's operations on the store *)

Section Store.

Context {T : Type} (proj : object -> option T).

Lemma bind_Some {A B} (m : M A) (k : A -> M B) h a h' :
  m h = Some (a, h') -> bind m k h = k a h'.
Proof. intros E. unfold bind. now rewrite E. Qed.

Lemma load_hit p h o x :
  h !! p = Some o -> proj o = Some x -> load proj p h = Some (x, h).
Proof. intros Hp Ho. unfold load. now rewrite Hp, Ho. Qed.

Lemma field_hit {F} (f : T -> F) p h o x :
  h !! p = Some o -> proj o = Some x -> field proj f p h = Some (f x, h).
Proof.
  intros Hp Ho. unfold field.
  now rewrite (bind_Some _ _ _ _ _ (load_hit _ _ _ _ Hp Ho)).
Qed.

Lemma type_assert_hit v p h o x :
  v = Some p -> h !! p = Some o -> proj o = Some x ->
  type_assert proj v h = Some (Some p, h).
Proof. intros -> Hp Ho. unfold type_assert. now rewrite Hp, Ho. Qed.

Lemma type_assert_nil h : type_assert proj None h = Some (None, h).
Proof. reflexivity. Qed.

Lemma type_assert_miss v p h o :
  v = Some p -> h !! p = Some o -> proj o = None ->
  type_assert proj v h = Some (None, h).
Proof. intros -> Hp Ho. unfold type_assert. now rewrite Hp, Ho. Qed.

(** A type assertion never panics and leaves the store as it is. *)
Lemma type_assert_cases v h :
  type_assert proj v h = Some (None, h) \/
  exists p o x, v = Some p /\ h !! p = Some o /\ proj o = Some x /\
                type_assert proj v h = Some (Some p, h).
Proof.
  unfold type_assert. destruct v as [p|]; [|now left].
  destruct (h !! p) as [o|] eqn:Hp; [|now left].
  destruct (proj o) as [x|] eqn:Ho; [|now left].
  right. now exists p, o, x.
Qed.

End Store.

Lemma new_spec o h :
  exists p, new o h = Some (p, <[p := o]> h) /\ h !! p = None.
Proof.
  exists (fresh (dom h)). split; [reflexivity|].
  apply not_elem_of_dom, is_fresh.
Qed.

Lemma insert_fresh_subseteq (h : heap) p o : h !! p = None -> h ⊆ <[p := o]> h.
Proof. intros Hp. now apply insert_subseteq. Qed.

Lemma to_Node_inv o n : to_Node o = Some n -> o = ObjNode n.
Proof. destruct o; simpl; congruence. Qed.

Lemma to_Allocation_inv o a : to_Allocation o = Some a -> o = ObjAllocation a.
Proof. destruct o; simpl; congruence. Qed.

Lemma Node_Sanitize_spec p h n :
  h !! p = Some (ObjNode n) ->
  exists p', Node_Sanitize p h =
               Some (p', <[p' := ObjNode {| Node_ID := Node_ID n; Node_SecretID := "" |}]> h)
             /\ h !! p' = None.
Proof.
  intros Hp. unfold Node_Sanitize.
  rewrite (bind_Some _ _ _ _ _ (load_hit to_Node _ _ _ _ Hp eq_refl)).
  apply new_spec.
Qed.

Lemma Allocation_Copy_spec p h a :
  h !! p = Some (ObjAllocation a) ->
  exists p', Allocation_Copy p h = Some (p', <[p' := ObjAllocation a]> h)
             /\ h !! p' = None.
Proof.
  intros Hp. unfold Allocation_Copy.
  rewrite (bind_Some _ _ _ _ _ (load_hit to_Allocation _ _ _ _ Hp eq_refl)).
  apply new_spec.
Qed.

Lemma set_Allocation_Job_spec p h a j :
  h !! p = Some (ObjAllocation a) ->
  set_Allocation_Job p j h =
    Some (tt, <[p := ObjAllocation {| Allocation_ID := Allocation_ID a;
                     Allocation_Namespace := Allocation_Namespace a;
                     Allocation_JobID := Allocation_JobID a;
                     Allocation_DeploymentID := Allocation_DeploymentID a;
                     Allocation_Job := j |}]> h).
Proof.
  intros Hp. unfold set_Allocation_Job.
  rewrite (bind_Some _ _ _ _ _ (load_hit to_Allocation _ _ _ _ Hp eq_refl)).
  unfold store. now rewrite Hp.
Qed.

(** ** The classifier, branch by branch *)

Ltac run_with E := rewrite (bind_Some _ _ _ _ _ E).

Ltac run_field Hp :=
  match goal with
  | |- context [bind (field ?proj ?f ?p) ?k ?h] =>
      rewrite (bind_Some (field proj f p) k h _ _ (field_hit proj f p h _ _ Hp eq_refl))
  end.

Ltac run_fields Hp := repeat (run_field Hp).

Section Classifier.

Variable TableServiceRegistrations : string.

Abbreviation classify := (eventFromChange TableServiceRegistrations).
Abbreviation dropped := (dropped TableServiceRegistrations).
Abbreviation classified_in := (classified_in TableServiceRegistrations).

(** A node change: the event is built from a sanitized copy. *)
Lemma classify_node change h p n :
  Table change = "nodes" ->
  authoritative change = Some p ->
  h !! p = Some (ObjNode n) ->
  exists p',
    classify change h =
      Some (Some (Event_lit TopicNode (Node_ID n) [] "" (NodeStreamEvent p')),
            <[p' := ObjNode {| Node_ID := Node_ID n; Node_SecretID := "" |}]> h)
    /\ h !! p' = None.
Proof.
  intros Ht Ha Hp. unfold authoritative in Ha.
  destruct (Node_Sanitize_spec p h n Hp) as (p' & Hs & Hfresh).
  exists p'. split; [|exact Hfresh].
  unfold eventFromChange. rewrite Ht.
  destruct (Deleted change); simpl;
    run_with (type_assert_hit to_Node _ _ _ _ _ Ha Hp eq_refl);
    run_with Hs;
    run_fields (lookup_insert_eq h p' (ObjNode {| Node_ID := Node_ID n; Node_SecretID := "" |}));
    reflexivity.
Qed.

(** An allocation upsert: the event is built from a copy without job. *)
Lemma classify_alloc change h p a :
  Deleted change = false ->
  Table change = "allocs" ->
  After change = Some p ->
  h !! p = Some (ObjAllocation a) ->
  exists p',
    classify change h =
      Some (Some (Event_lit TopicAllocation (Allocation_ID a)
                    [Allocation_JobID a; Allocation_DeploymentID a]
                    (Allocation_Namespace a) (AllocationEvent p')),
            <[p' := ObjAllocation (without_Job a)]> h)
    /\ h !! p' = None.
Proof.
  intros Hd Ht Ha Hp.
  destruct (Allocation_Copy_spec p h a Hp) as (p' & Hc & Hfresh).
  exists p'. split; [|exact Hfresh].
  assert (Hne : p' <> p) by congruence.
  unfold eventFromChange. rewrite Hd, Ht. simpl.
  run_with (type_assert_hit to_Allocation _ _ _ _ _ Ha Hp eq_refl).
  run_with Hc.
  pose proof (lookup_insert_eq h p' (ObjAllocation a)) as Hp1.
  run_fields Hp1.
  run_with (set_Allocation_Job_spec p' _ a None Hp1).
  rewrite insert_insert_eq.
  assert (Hp2 : <[p' := ObjAllocation (without_Job a)]> h !! p = Some (ObjAllocation a))
    by now rewrite lookup_insert_ne.
  fold (without_Job a).
  run_fields Hp2.
  reflexivity.
Qed.

(** The branches that only read their snapshot. *)
Lemma classify_acl_token change h p t :
  Table change = "acl_token" ->
  authoritative change = Some p ->
  h !! p = Some (ObjACLToken t) ->
  classify change h =
    Some (Some (Event_lit TopicACLToken (ACLToken_AccessorID t) [] ""
                  (ACLTokenEvent p)), h).
Proof.
  intros Ht Ha Hp. unfold authoritative in Ha.
  unfold eventFromChange. rewrite Ht.
  destruct (Deleted change); simpl;
    run_with (type_assert_hit to_ACLToken _ _ _ _ _ Ha Hp eq_refl);
    run_fields Hp; reflexivity.
Qed.

Lemma classify_acl_policy change h p pol :
  Table change = "acl_policy" ->
  authoritative change = Some p ->
  h !! p = Some (ObjACLPolicy pol) ->
  classify change h =
    Some (Some (Event_lit TopicACLPolicy (ACLPolicy_Name pol) [] ""
                  (ACLPolicyEvent p)), h).
Proof.
  intros Ht Ha Hp. unfold authoritative in Ha.
  unfold eventFromChange. rewrite Ht.
  destruct (Deleted change); simpl;
    run_with (type_assert_hit to_ACLPolicy _ _ _ _ _ Ha Hp eq_refl);
    run_fields Hp; reflexivity.
Qed.

Lemma eqb_literal t :
  TableServiceRegistrations ∉ literal_tables ->
  t ∈ literal_tables ->
  String.eqb TableServiceRegistrations t = false.
Proof.
  intros Hfresh Ht. apply String.eqb_neq. intros ->. contradiction.
Qed.

Lemma classify_service change h p sr :
  TableServiceRegistrations ∉ literal_tables ->
  Table change = TableServiceRegistrations ->
  authoritative change = Some p ->
  h !! p = Some (ObjServiceRegistration sr) ->
  classify change h =
    Some (Some (Event_lit TopicService (ServiceRegistration_ID sr)
                  [ServiceRegistration_JobID sr; ServiceRegistration_ServiceName sr]
                  (ServiceRegistration_Namespace sr)
                  (ServiceRegistrationStreamEvent p)), h).
Proof.
  intros Hfresh Ht Ha Hp. unfold authoritative in Ha.
  unfold eventFromChange. rewrite Ht.
  destruct (Deleted change);
    repeat (match goal with
            | |- context [String.eqb TableServiceRegistrations ?t] =>
                rewrite (eqb_literal t Hfresh) by (unfold literal_tables; set_solver)
            end);
    rewrite String.eqb_refl;
    run_with (type_assert_hit to_ServiceRegistration _ _ _ _ _ Ha Hp eq_refl);
    run_fields Hp; reflexivity.
Qed.

(** The classifier never panics; it only adds objects to the store, and
    adds none when it gives no event. *)
Lemma classify_total change h :
  exists r h', classify change h = Some (r, h') /\ h ⊆ h' /\ (r = None -> h' = h).
Proof.
  unfold eventFromChange.
  destruct (Deleted change);
    repeat (match goal with
            | |- context [if String.eqb ?a ?b then _ else _] =>
                destruct (String.eqb a b) eqn:?
            end);
    try (exists None, h; split; [reflexivity | split; [reflexivity | tauto]]);
    match goal with
    | |- context [bind (type_assert ?proj ?v) _ h] =>
        destruct (type_assert_cases proj v h) as [E | (p & o & x & Hv & Hp & Ho & E)];
          run_with E;
          [exists None, h; split; [reflexivity | split; [reflexivity | tauto]]|]
    end;
    try (apply to_Node_inv in Ho; subst o;
         destruct (Node_Sanitize_spec p h x Hp) as (p' & Hs & Hfresh);
         run_with Hs;
         run_fields (lookup_insert_eq h p' (ObjNode {| Node_ID := Node_ID x; Node_SecretID := "" |}));
         eexists _, _; split; [reflexivity|];
         split; [now apply insert_fresh_subseteq | discriminate]);
    try (apply to_Allocation_inv in Ho; subst o;
         destruct (Allocation_Copy_spec p h x Hp) as (p' & Hc & Hfresh);
         assert (Hne : p' <> p) by congruence;
         run_with Hc;
         pose proof (lookup_insert_eq h p' (ObjAllocation x)) as Hp1;
         run_fields Hp1;
         run_with (set_Allocation_Job_spec p' _ x None Hp1);
         rewrite insert_insert_eq;
         assert (Hp2 : <[p' := ObjAllocation (without_Job x)]> h !! p = Some (ObjAllocation x))
           by (now rewrite lookup_insert_ne);
         fold (without_Job x);
         run_fields Hp2;
         eexists _, _; split; [reflexivity|];
         split; [now apply insert_fresh_subseteq | discriminate]);
    try (destruct o; simpl in Ho; try discriminate Ho;
         run_fields Hp;
         eexists _, _; split; [reflexivity|]; split; [reflexivity | discriminate]).
Qed.

(** *** Changes that give no event *)

Ltac case_tables :=
  repeat (match goal with
          | |- context [if String.eqb ?a ?b then _ else _] =>
              let E := fresh "E" in
              destruct (String.eqb a b) eqn:E;
              [apply String.eqb_eq in E|apply String.eqb_neq in E]
          end).

Lemma classify_deleted_other change h :
  Deleted change = true ->
  Table change ∉ ["acl_token"; "acl_policy"; "nodes"; TableServiceRegistrations] ->
  classify change h = Some (None, h).
Proof.
  intros Hd Ht. unfold eventFromChange. rewrite Hd.
  case_tables; try reflexivity; exfalso; apply Ht; set_solver.
Qed.

Lemma classify_unknown_table change h :
  Table change ∉ dispatch_tables TableServiceRegistrations ->
  classify change h = Some (None, h).
Proof.
  intros Ht. unfold eventFromChange, dispatch_tables in *.
  destruct (Deleted change);
    case_tables; try reflexivity; exfalso; apply Ht; set_solver.
Qed.

Lemma classify_absent change h :
  authoritative change = None ->
  classify change h = Some (None, h).
Proof.
  unfold authoritative, eventFromChange.
  destruct (Deleted change); intros ->; case_tables; reflexivity.
Qed.

Lemma classify_mismatch change h p o :
  authoritative change = Some p ->
  h !! p = Some o ->
  table_of TableServiceRegistrations o <> Some (Table change) ->
  classify change h = Some (None, h).
Proof.
  unfold authoritative, eventFromChange.
  destruct (Deleted change); intros Ha Hp Ho;
    case_tables; try reflexivity;
    match goal with
    | |- context [bind (type_assert ?proj ?v) _ h] =>
        rewrite (bind_Some _ _ _ _ _ (type_assert_miss proj v p h o Ha Hp
                   ltac:(destruct o; simpl in *; congruence)))
    end;
    reflexivity.
Qed.

Lemma dropped_mono (h h1 : heap) change : h ⊆ h1 -> dropped h change -> dropped h1 change.
Proof.
  intros Hsub [Ht | [Ha | (p & o & Ha & Hp & Ho)]].
  - now left.
  - right. now left.
  - right. right. exists p, o. split; [exact Ha|]. split; [|exact Ho].
    exact (lookup_weaken _ _ _ _ Hp Hsub).
Qed.

Lemma classify_dropped h change :
  dropped h change -> classify change h = Some (None, h).
Proof.
  intros [Ht | [Ha | (p & o & Ha & Hp & Ho)]].
  - now apply classify_unknown_table.
  - now apply classify_absent.
  - now apply (classify_mismatch change h p o).
Qed.

(** ** The loop of the batch assembler *)

Abbreviation range := (range_Changes TableServiceRegistrations).

Lemma classified_in_mono (h h' : heap) ty index c e :
  h ⊆ h' -> classified_in h' ty index c e -> classified_in h ty index c e.
Proof.
  intros Hsub (h1 & h2 & e0 & Hh & Hc & He).
  exists h1, h2, e0. split; [now transitivity h'|]. now split.
Qed.

Lemma range_cons ty index change rest events h r h1 :
  classify change h = Some (r, h1) ->
  range ty index (change :: rest) events h =
    range ty index rest
      (match r with
       | Some event => events ++ [stamp ty index event]
       | None => events
       end) h1.
Proof. intros E. simpl. run_with E. now destruct r. Qed.

Lemma range_app ty index cs1 cs2 :
  forall events h,
    range ty index (cs1 ++ cs2) events h =
      match range ty index cs1 events h with
      | Some (events1, h1) => range ty index cs2 events1 h1
      | None => None
      end.
Proof.
  induction cs1 as [|c cs1 IH]; intros events h; [reflexivity|].
  destruct (classify_total c h) as (r & h1 & E & _).
  rewrite <- app_comm_cons, !(range_cons _ _ _ _ _ _ _ _ E). apply IH.
Qed.

(** The loop never panics; it appends to the slice the stamped events of
    an order-preserving selection of the changes, and only adds objects
    to the store. *)
Lemma range_spec ty index cs :
  forall events h,
    exists events' h',
      range ty index cs events h = Some (events ++ events', h') /\
      h ⊆ h' /\
      exists picked, sublist picked cs /\
                     Forall2 (classified_in h ty index) picked events'.
Proof.
  induction cs as [|c cs IH]; intros events h.
  - exists [], h. rewrite app_nil_r. split; [reflexivity|]. split; [reflexivity|].
    exists []. split; constructor.
  - destruct (classify_total c h) as (r & h1 & E & Hsub & _).
    rewrite (range_cons _ _ _ _ _ _ _ _ E).
    destruct r as [e0|].
    + destruct (IH (events ++ [stamp ty index e0]) h1)
        as (events' & h' & Hr & Hsub' & picked & Hpick & Hall).
      exists (stamp ty index e0 :: events'), h'.
      rewrite <- app_assoc in Hr. split; [exact Hr|].
      split; [now transitivity h1|].
      exists (c :: picked). split; [now constructor|].
      constructor.
      * exists h, h1, e0. split; [reflexivity|]. now split.
      * eapply Forall2_impl; [exact Hall|].
        intros c' e'. now apply classified_in_mono.
    + destruct (IH events h1) as (events' & h' & Hr & Hsub' & picked & Hpick & Hall).
      exists events', h'. split; [exact Hr|].
      split; [now transitivity h1|].
      exists picked. split; [now constructor|].
      eapply Forall2_impl; [exact Hall|].
      intros c' e'. now apply classified_in_mono.
Qed.

(** When no change classifies, the slice and the store stay as they are. *)
Lemma range_none ty index cs events h :
  Forall (fun c => exists h2, classify c h = Some (None, h2)) cs ->
  range ty index cs events h = Some (events, h).
Proof.
  induction 1 as [|c cs (h2 & E) _ IH]; [reflexivity|].
  destruct (classify_total c h) as (r & h1 & E' & _ & Hsame).
  rewrite E in E'. injection E' as <- <-.
  rewrite (range_cons _ _ _ _ _ _ _ _ E), (Hsame eq_refl). exact IH.
Qed.

(** Every appended event carries the type and the index of the loop. *)
Lemma classified_in_stamped h ty index c e :
  classified_in h ty index c e -> Event_Index e = index /\ Event_Type e = ty.
Proof. intros (h1 & h2 & e0 & _ & _ & ->). now split. Qed.

End Classifier.

(** ** Properties of the batch assembler *)

Lemma Forall2_classified_stamped TableServiceRegistrations h ty index picked events :
  Forall2 (classified_in TableServiceRegistrations h ty index) picked events ->
  Forall (fun e => Event_Index e = index /\ Event_Type e = ty) events.
Proof.
  induction 1 as [|c e picked events Hc _ IH]; constructor; [|exact IH].
  exact (classified_in_stamped _ _ _ _ _ _ Hc).
Qed.

(** What [eventsFromChanges] does under a mapped write kind. *)
Lemma eventsFromChanges_mapped {ReadTxn} TableServiceRegistrations (tx : ReadTxn)
    changes h eventType :
  MsgTypeEvents !! Changes_MsgType changes = Some eventType ->
  exists events h',
    eventsFromChanges TableServiceRegistrations tx changes h =
      Some (Some {| Events_Index := Changes_Index changes; Events_Events := events |}, h')
    /\ range_Changes TableServiceRegistrations eventType (Changes_Index changes)
         (Changes_Changes changes) [] h = Some (events, h').
Proof.
  intros Hm.
  destruct (range_spec TableServiceRegistrations eventType (Changes_Index changes)
              (Changes_Changes changes) [] h) as (events & h' & Hr & _).
  exists events, h'. split; [|exact Hr].
  unfold eventsFromChanges. rewrite Hm. now run_with Hr.
Qed.

(** C1. Under a mapped write kind the events of the batch are the stamped
    events of an order-preserving selection of the changes: a sublist
    [picked] of the changes, in their order, each member giving exactly
    one event, so that no event is reordered and no change gives two. *)
Theorem eventsFromChanges_order_preserving {ReadTxn} TableServiceRegistrations
    (tx : ReadTxn) (changes : Changes) (h : heap) (eventType : EventType) :
  MsgTypeEvents !! Changes_MsgType changes = Some eventType ->
  exists batch h',
    eventsFromChanges TableServiceRegistrations tx changes h = Some (Some batch, h') /\
    exists picked,
      sublist picked (Changes_Changes changes) /\
      Forall2 (classified_in TableServiceRegistrations h eventType (Changes_Index changes))
        picked (Events_Events batch).
Proof.
  intros Hm.
  destruct (eventsFromChanges_mapped TableServiceRegistrations tx changes h _ Hm)
    as (events & h' & He & Hr).
  destruct (range_spec TableServiceRegistrations eventType (Changes_Index changes)
              (Changes_Changes changes) [] h) as (events' & h'' & Hr' & _ & Hpick).
  rewrite Hr in Hr'. injection Hr' as -> ->.
  eexists _, _. split; [exact He|]. exact Hpick.
Qed.

Lemma eventsFromChanges_order_preserving_witness :
  exists batch h',
    eventsFromChanges Sample.service_registrations tt Sample.alloc_update Sample.store =
      Some (Some batch, h') /\
    exists picked,
      sublist picked (Changes_Changes Sample.alloc_update) /\
      Forall2 (classified_in Sample.service_registrations Sample.store
                 TypeAllocationUpdated 7)
        picked (Events_Events batch).
Proof.
  apply (eventsFromChanges_order_preserving Sample.service_registrations tt
           Sample.alloc_update Sample.store TypeAllocationUpdated).
  vm_compute. reflexivity.
Defined.

(** C2. [eventsFromChanges] never panics; it returns the nil batch exactly
    when the write kind is not a key of [MsgTypeEvents], whatever the
    changes are, and under a mapped write kind none of whose changes
    classifies it returns a batch with no event. *)
Theorem eventsFromChanges_nil_iff_unmapped {ReadTxn} TableServiceRegistrations
    (tx : ReadTxn) (changes : Changes) (h : heap) :
  exists r h',
    eventsFromChanges TableServiceRegistrations tx changes h = Some (r, h') /\
    (r = None <-> MsgTypeEvents !! Changes_MsgType changes = None) /\
    (is_Some (MsgTypeEvents !! Changes_MsgType changes) ->
     Forall (fun c => exists h2, eventFromChange TableServiceRegistrations c h = Some (None, h2))
       (Changes_Changes changes) ->
     r = Some {| Events_Index := Changes_Index changes; Events_Events := [] |}).
Proof.
  destruct (MsgTypeEvents !! Changes_MsgType changes) as [eventType|] eqn:Hm.
  - destruct (eventsFromChanges_mapped TableServiceRegistrations tx changes h _ Hm)
      as (events & h' & He & Hr).
    eexists _, _. split; [exact He|]. split; [split; discriminate|].
    intros _ Hnone.
    rewrite (range_none _ _ _ _ _ _ Hnone) in Hr. now injection Hr as <- <-.
  - exists None, h. split; [|split].
    + unfold eventsFromChanges. now rewrite Hm.
    + tauto.
    + intros [ty Hty]. discriminate Hty.
Qed.

(** C3. Under a mapped write kind the index of the batch and the index of
    each of its events are the index of the changes, and the type of each
    event is the tag [MsgTypeEvents] gives for the write kind. *)
Theorem eventsFromChanges_stamps_index_and_type {ReadTxn} TableServiceRegistrations
    (tx : ReadTxn) (changes : Changes) (h : heap) (eventType : EventType) :
  MsgTypeEvents !! Changes_MsgType changes = Some eventType ->
  exists batch h',
    eventsFromChanges TableServiceRegistrations tx changes h = Some (Some batch, h') /\
    Events_Index batch = Changes_Index changes /\
    Forall (fun e => Event_Index e = Changes_Index changes /\ Event_Type e = eventType)
      (Events_Events batch).
Proof.
  intros Hm.
  destruct (eventsFromChanges_mapped TableServiceRegistrations tx changes h _ Hm)
    as (events & h' & He & Hr).
  destruct (range_spec TableServiceRegistrations eventType (Changes_Index changes)
              (Changes_Changes changes) [] h)
    as (events' & h'' & Hr' & _ & picked & _ & Hall).
  rewrite Hr in Hr'. injection Hr' as -> ->.
  eexists _, _. split; [exact He|]. split; [reflexivity|].
  exact (Forall2_classified_stamped _ _ _ _ _ _ Hall).
Qed.

Lemma eventsFromChanges_stamps_index_and_type_witness :
  exists batch h',
    eventsFromChanges Sample.service_registrations tt Sample.alloc_update Sample.store =
      Some (Some batch, h') /\
    Events_Index batch = 7%N /\
    Forall (fun e => Event_Index e = 7%N /\ Event_Type e = TypeAllocationUpdated)
      (Events_Events batch).
Proof.
  apply (eventsFromChanges_stamps_index_and_type Sample.service_registrations tt
           Sample.alloc_update Sample.store TypeAllocationUpdated).
  vm_compute. reflexivity.
Defined.

(** ** Properties of the classifier *)

(** C4. A change on the node table whose authoritative snapshot ([Before]
    when deleted, [After] otherwise) is a node gives an event with topic
    Node, the node's id as key, no namespace and no filter keys; its
    payload points to a new node [p'] that has the id of the snapshot and
    an empty secret. *)
Theorem eventFromChange_node_sanitized TableServiceRegistrations
    (change : Change) (h : heap) (p : loc) (n : Node) :
  Table change = "nodes" ->
  authoritative change = Some p ->
  h !! p = Some (ObjNode n) ->
  exists e h' p' n',
    eventFromChange TableServiceRegistrations change h = Some (Some e, h') /\
    Event_Topic e = TopicNode /\
    Event_Key e = Node_ID n /\
    Event_Namespace e = "" /\
    Event_FilterKeys e = [] /\
    Event_Payload e = NodeStreamEvent p' /\
    p' <> p /\
    h' !! p' = Some (ObjNode n') /\
    Node_ID n' = Node_ID n /\
    Node_SecretID n' = "".
Proof.
  intros Ht Ha Hp.
  destruct (classify_node TableServiceRegistrations change h p n Ht Ha Hp)
    as (p' & He & Hfresh).
  eexists _, _, p', _. split; [exact He|].
  repeat (split; [reflexivity|]).
  split; [congruence|].
  split; [apply lookup_insert_eq|]. split; reflexivity.
Qed.

Lemma eventFromChange_node_sanitized_witness :
  exists e h' p' n',
    eventFromChange Sample.service_registrations (Sample.delete "nodes" 3%positive)
      Sample.store = Some (Some e, h') /\
    Event_Topic e = TopicNode /\
    Event_Key e = "n1" /\
    Event_Namespace e = "" /\
    Event_FilterKeys e = [] /\
    Event_Payload e = NodeStreamEvent p' /\
    p' <> 3%positive /\
    h' !! p' = Some (ObjNode n') /\
    Node_ID n' = "n1" /\
    Node_SecretID n' = "".
Proof.
  apply (eventFromChange_node_sanitized Sample.service_registrations
           (Sample.delete "nodes" 3%positive) Sample.store 3%positive Sample.node1).
  - reflexivity.
  - reflexivity.
  - vm_compute. reflexivity.
Defined.

(** C5. An upsert on the allocation table whose [After] is an allocation
    gives an event with topic Allocation, the allocation's id as key, its
    namespace, and its job id and deployment id as filter keys; the
    payload points to a new allocation [p'] whose [Job] field is nil, the
    other fields being those of the snapshot. *)
Theorem eventFromChange_alloc_without_job TableServiceRegistrations
    (change : Change) (h : heap) (p : loc) (a : Allocation) :
  Deleted change = false ->
  Table change = "allocs" ->
  After change = Some p ->
  h !! p = Some (ObjAllocation a) ->
  exists e h' p' a',
    eventFromChange TableServiceRegistrations change h = Some (Some e, h') /\
    Event_Topic e = TopicAllocation /\
    Event_Key e = Allocation_ID a /\
    Event_Namespace e = Allocation_Namespace a /\
    Event_FilterKeys e = [Allocation_JobID a; Allocation_DeploymentID a] /\
    Event_Payload e = AllocationEvent p' /\
    h' !! p' = Some (ObjAllocation a') /\
    Allocation_Job a' = None /\
    a' = without_Job a.
Proof.
  intros Hd Ht Ha Hp.
  destruct (classify_alloc TableServiceRegistrations change h p a Hd Ht Ha Hp)
    as (p' & He & Hfresh).
  eexists _, _, p', _. split; [exact He|].
  repeat (split; [reflexivity|]).
  split; [apply lookup_insert_eq|]. split; reflexivity.
Qed.

Lemma eventFromChange_alloc_without_job_witness :
  exists e h' p' a',
    eventFromChange Sample.service_registrations (Sample.upsert "allocs" 1%positive)
      Sample.store = Some (Some e, h') /\
    Event_Topic e = TopicAllocation /\
    Event_Key e = "a1" /\
    Event_Namespace e = "default" /\
    Event_FilterKeys e = ["web"; "d1"] /\
    Event_Payload e = AllocationEvent p' /\
    h' !! p' = Some (ObjAllocation a') /\
    Allocation_Job a' = None /\
    a' = without_Job Sample.alloc1.
Proof.
  apply (eventFromChange_alloc_without_job Sample.service_registrations
           (Sample.upsert "allocs" 1%positive) Sample.store 1%positive Sample.alloc1).
  - reflexivity.
  - reflexivity.
  - reflexivity.
  - vm_compute. reflexivity.
Defined.



(** C8. On the delete path every table other than the token, policy, node
    and service registration tables gives no event; so a deleted change
    on the evaluation, allocation, job, deployment or auth method table
    gives none. *)
Theorem eventFromChange_delete_path_tables TableServiceRegistrations
    (change : Change) (h : heap) :
  Deleted change = true ->
  (Table change ∉ ["acl_token"; "acl_policy"; "nodes"; TableServiceRegistrations] ->
   eventFromChange TableServiceRegistrations change h = Some (None, h)) /\
  (TableServiceRegistrations ∉ literal_tables ->
   Table change ∈ ["evals"; "allocs"; "jobs"; "deployment"; "auth_method"] ->
   eventFromChange TableServiceRegistrations change h = Some (None, h)).
Proof.
  intros Hd. split.
  - intros Ht. now apply classify_deleted_other.
  - intros Hfresh Ht. apply classify_deleted_other; [exact Hd|].
    intros Hin. apply Hfresh. unfold literal_tables.
    repeat (apply elem_of_cons in Ht as [Ht|Ht]);
      try (now apply elem_of_nil in Ht);
      rewrite Ht in Hin;
      repeat (apply elem_of_cons in Hin as [Hin|Hin]; [try discriminate Hin|]);
      try (now apply elem_of_nil in Hin);
      rewrite <- Hin; set_solver.
Qed.

Lemma eventFromChange_delete_path_tables_witness :
  (Table (Sample.delete "allocs" 1%positive)
     ∉ ["acl_token"; "acl_policy"; "nodes"; Sample.service_registrations] ->
   eventFromChange Sample.service_registrations (Sample.delete "allocs" 1%positive)
     Sample.store = Some (None, Sample.store)) /\
  (Sample.service_registrations ∉ literal_tables ->
   Table (Sample.delete "allocs" 1%positive)
     ∈ ["evals"; "allocs"; "jobs"; "deployment"; "auth_method"] ->
   eventFromChange Sample.service_registrations (Sample.delete "allocs" 1%positive)
     Sample.store = Some (None, Sample.store)).
Proof.
  apply (eventFromChange_delete_path_tables Sample.service_registrations
           (Sample.delete "allocs" 1%positive) Sample.store).
  reflexivity.
Defined.

(** C9. [eventsFromChanges] never panics and leaves every object of the
    store it was called on as it was: whatever a location held before the
    call (an allocation with its job, a node with its secret) it holds
    after it. *)
Theorem eventsFromChanges_preserves_store {ReadTxn} TableServiceRegistrations
    (tx : ReadTxn) (changes : Changes) (h : heap) :
  exists r h',
    eventsFromChanges TableServiceRegistrations tx changes h = Some (r, h') /\
    forall p o, h !! p = Some o -> h' !! p = Some o.
Proof.
  unfold eventsFromChanges.
  destruct (MsgTypeEvents !! Changes_MsgType changes) as [eventType|].
  - destruct (range_spec TableServiceRegistrations eventType (Changes_Index changes)
                (Changes_Changes changes) [] h) as (events & h' & Hr & Hsub & _).
    eexists _, h'. run_with Hr. split; [reflexivity|].
    intros p o Hp. exact (lookup_weaken _ _ _ _ Hp Hsub).
  - exists None, h. split; [reflexivity|]. tauto.
Qed.

(** C10. Service registration changes follow one rule on both paths: a
    delete whose [Before] is the registration at [p] and an upsert whose
    [After] is that pointer give the same event, with topic Service, the
    registration's id as key, its namespace, and its job id and service
    name as filter keys. *)
Theorem eventFromChange_service_symmetric TableServiceRegistrations
    (del ups : Change) (h : heap) (p : loc) (sr : ServiceRegistration) :
  TableServiceRegistrations ∉ literal_tables ->
  Deleted del = true -> Before del = Some p ->
  Deleted ups = false -> After ups = Some p ->
  Table del = TableServiceRegistrations -> Table ups = TableServiceRegistrations ->
  h !! p = Some (ObjServiceRegistration sr) ->
  exists e,
    eventFromChange TableServiceRegistrations del h = Some (Some e, h) /\
    eventFromChange TableServiceRegistrations ups h = Some (Some e, h) /\
    Event_Topic e = TopicService /\
    Event_Key e = ServiceRegistration_ID sr /\
    Event_Namespace e = ServiceRegistration_Namespace sr /\
    Event_FilterKeys e =
      [ServiceRegistration_JobID sr; ServiceRegistration_ServiceName sr] /\
    Event_Payload e = ServiceRegistrationStreamEvent p.
Proof.
  intros Hfresh Hd Hb Hu Ha Htd Htu Hp.
  assert (Hdel : authoritative del = Some p) by (unfold authoritative; now rewrite Hd).
  assert (Hups : authoritative ups = Some p) by (unfold authoritative; now rewrite Hu).
  eexists. split; [exact (classify_service _ del h p sr Hfresh Htd Hdel Hp)|].
  split; [exact (classify_service _ ups h p sr Hfresh Htu Hups Hp)|].
  repeat split.
Qed.

Lemma eventFromChange_service_symmetric_witness :
  exists e,
    eventFromChange Sample.service_registrations
      (Sample.delete Sample.service_registrations 6%positive) Sample.store =
      Some (Some e, Sample.store) /\
    eventFromChange Sample.service_registrations
      (Sample.upsert Sample.service_registrations 6%positive) Sample.store =
      Some (Some e, Sample.store) /\
    Event_Topic e = TopicService /\
    Event_Key e = "svc1" /\
    Event_Namespace e = "default" /\
    Event_FilterKeys e = ["web"; "redis"] /\
    Event_Payload e = ServiceRegistrationStreamEvent 6%positive.
Proof.
  apply (eventFromChange_service_symmetric Sample.service_registrations
           (Sample.delete Sample.service_registrations 6%positive)
           (Sample.upsert Sample.service_registrations 6%positive)
           Sample.store 6%positive Sample.service1);
    try reflexivity.
  vm_compute. intros Hin.
  repeat (apply elem_of_cons in Hin as [Hin|Hin]; [discriminate Hin|]).
  now apply elem_of_nil in Hin.
Defined.

(** ** The sample transactions, evaluated *)

(** The allocation update gives two events: the allocation's, then the
    node's; the change on table "jobs" that holds a node gives none. *)
Example alloc_update_batch :
  fst <$> eventsFromChanges Sample.service_registrations tt Sample.alloc_update Sample.store =
  Some (Some {|
    Events_Index := 7;
    Events_Events := [
      {| Event_Topic := TopicAllocation; Event_Type := TypeAllocationUpdated;
         Event_Key := "a1"; Event_Namespace := "default";
         Event_FilterKeys := ["web"; "d1"]; Event_Index := 7;
         Event_Payload := AllocationEvent 7%positive |};
      {| Event_Topic := TopicNode; Event_Type := TypeAllocationUpdated;
         Event_Key := "n1"; Event_Namespace := "";
         Event_FilterKeys := []; Event_Index := 7;
         Event_Payload := NodeStreamEvent 8%positive |} ] |}).
Proof. vm_compute. reflexivity. Qed.

(** The payloads point to the copies at 7 and 8; the snapshots at 1 and 3
    still have their job and their secret. *)
Example alloc_update_store :
  match eventsFromChanges Sample.service_registrations tt Sample.alloc_update Sample.store with
  | Some (_, h') =>
      h' !! 1%positive = Some (ObjAllocation Sample.alloc1) /\
      h' !! 3%positive = Some (ObjNode Sample.node1) /\
      h' !! 7%positive = Some (ObjAllocation (without_Job Sample.alloc1)) /\
      h' !! 8%positive = Some (ObjNode {| Node_ID := "n1"; Node_SecretID := "" |})
  | None => False
  end.
Proof. vm_compute. repeat split. Qed.

(** The same changes under an unmapped write kind give the nil batch. *)
Example unmapped_update_nil :
  fst <$> eventsFromChanges Sample.service_registrations tt Sample.unmapped_update
            Sample.store = Some None.
Proof. vm_compute. reflexivity. Qed.

(** A policy change gives the same event on both paths. *)
Example acl_policy_both_paths :
  fst <$> eventFromChange Sample.service_registrations
            (Sample.delete "acl_policy" 5%positive) Sample.store =
    Some (Some (Event_lit TopicACLPolicy "readonly" [] "" (ACLPolicyEvent 5%positive))) /\
  fst <$> eventFromChange Sample.service_registrations
            (Sample.upsert "acl_policy" 5%positive) Sample.store =
    Some (Some (Event_lit TopicACLPolicy "readonly" [] "" (ACLPolicyEvent 5%positive))).
Proof. vm_compute. split; reflexivity. Qed.

(** A deleted evaluation, job or deployment gives no event. *)
Example delete_path_upsert_only_tables :
  Forall (fun table =>
            fst <$> eventFromChange Sample.service_registrations
                      (Sample.delete table 1%positive) Sample.store = Some None)
    ["evals"; "allocs"; "jobs"; "deployment"; "auth_method"].
Proof. repeat constructor. Qed.

(** ** The upsert-only tables and the rule of the dispatch *)

Section Dispatch.

Variable TableServiceRegistrations : string.

Abbreviation classify := (eventFromChange TableServiceRegistrations).

Ltac in_list := repeat first [apply list_elem_of_here | apply list_elem_of_further].

Ltac not_in_list H :=
  repeat (apply elem_of_cons in H as [H|H]; [discriminate H|]);
  now apply elem_of_nil in H.

(* the two side conditions of an upsert-only table [Ht : Table change = ..] *)
Ltac upsert_side Ht :=
  rewrite Ht;
  first [unfold literal_tables; in_list; fail
        |let Hin := fresh "Hin" in intros Hin; not_in_list Hin].

Ltac split_tables :=
  repeat (match goal with
          | |- context [if String.eqb ?a ?b then _ else _] =>
              let E := fresh "E" in
              destruct (String.eqb a b) eqn:E;
              [apply String.eqb_eq in E|apply String.eqb_neq in E]
          end).

Lemma classify_eval change h p ev :
  Deleted change = false ->
  Table change = "evals" ->
  After change = Some p ->
  h !! p = Some (ObjEvaluation ev) ->
  classify change h =
    Some (Some (Event_lit TopicEvaluation (Evaluation_ID ev)
                  [Evaluation_JobID ev; Evaluation_DeploymentID ev]
                  (Evaluation_Namespace ev) (EvaluationEvent p)), h).
Proof.
  intros Hd Ht Ha Hp. unfold eventFromChange. rewrite Hd, Ht. simpl.
  run_with (type_assert_hit to_Evaluation _ _ _ _ _ Ha Hp eq_refl).
  run_fields Hp. reflexivity.
Qed.

Lemma classify_job change h p j :
  Deleted change = false ->
  Table change = "jobs" ->
  After change = Some p ->
  h !! p = Some (ObjJob j) ->
  classify change h =
    Some (Some (Event_lit TopicJob (Job_ID j) [] (Job_Namespace j) (JobEvent p)), h).
Proof.
  intros Hd Ht Ha Hp. unfold eventFromChange. rewrite Hd, Ht. simpl.
  run_with (type_assert_hit to_Job _ _ _ _ _ Ha Hp eq_refl).
  run_fields Hp. reflexivity.
Qed.

Lemma classify_deployment change h p d :
  Deleted change = false ->
  Table change = "deployment" ->
  After change = Some p ->
  h !! p = Some (ObjDeployment d) ->
  classify change h =
    Some (Some (Event_lit TopicDeployment (Deployment_ID d) [Deployment_JobID d]
                  (Deployment_Namespace d) (DeploymentEvent p)), h).
Proof.
  intros Hd Ht Ha Hp. unfold eventFromChange. rewrite Hd, Ht. simpl.
  run_with (type_assert_hit to_Deployment _ _ _ _ _ Ha Hp eq_refl).
  run_fields Hp. reflexivity.
Qed.

Lemma classify_auth_method change h p m :
  Deleted change = false ->
  Table change = "auth_method" ->
  After change = Some p ->
  h !! p = Some (ObjAuthMethod m) ->
  classify change h =
    Some (Some (Event_lit TopicAuthMethod (AuthMethod_Name m) [] ""
                  (AuthMethodEvent p)), h).
Proof.
  intros Hd Ht Ha Hp. unfold eventFromChange. rewrite Hd, Ht. simpl.
  run_with (type_assert_hit to_AuthMethod _ _ _ _ _ Ha Hp eq_refl).
  run_fields Hp. reflexivity.
Qed.

(** A pointer that is no object of the store holds no type. *)
Lemma classify_dangling change h p :
  authoritative change = Some p ->
  h !! p = None ->
  classify change h = Some (None, h).
Proof.
  unfold authoritative, eventFromChange.
  destruct (Deleted change); intros Ha Hp; split_tables; try reflexivity;
    unfold bind, type_assert; rewrite Ha, Hp; reflexivity.
Qed.

Hypothesis TableServiceRegistrations_fresh : TableServiceRegistrations ∉ literal_tables.

Lemma literal_not_service t :
  t ∈ literal_tables -> t <> TableServiceRegistrations.
Proof. intros Ht ->. contradiction. Qed.

Lemma classifiable_classifies h change :
  classifiable TableServiceRegistrations h change ->
  exists e h', classify change h = Some (Some e, h').
Proof.
  intros (p & o & Ha & Hp & Ht & Hdel).
  assert (Hupsert : Table change ∈ literal_tables ->
                    Table change ∉ ["acl_token"; "acl_policy"; "nodes"] ->
                    Deleted change = false /\ After change = Some p).
  { intros Hlit Hnot. unfold authoritative in Ha.
    destruct (Deleted change); [|now split].
    exfalso. specialize (Hdel eq_refl). unfold delete_tables in Hdel.
    apply elem_of_cons in Hdel as [Hdel|Hdel]; [apply Hnot; rewrite Hdel; in_list|].
    apply elem_of_cons in Hdel as [Hdel|Hdel]; [apply Hnot; rewrite Hdel; in_list|].
    apply elem_of_cons in Hdel as [Hdel|Hdel]; [apply Hnot; rewrite Hdel; in_list|].
    apply elem_of_cons in Hdel as [Hdel|Hdel]; [|now apply elem_of_nil in Hdel].
    rewrite Hdel in Hlit. contradiction. }
  destruct o; simpl in Ht; try discriminate Ht; injection Ht as Ht; symmetry in Ht.
  - eexists _, _. exact (classify_acl_token TableServiceRegistrations change h p _ Ht Ha Hp).
  - eexists _, _. exact (classify_acl_policy TableServiceRegistrations change h p _ Ht Ha Hp).
  - destruct Hupsert as [Hd Hafter]; [upsert_side Ht ..|].
    eexists _, _. exact (classify_auth_method change h p _ Hd Ht Hafter Hp).
  - destruct (classify_node TableServiceRegistrations change h p _ Ht Ha Hp) as (p' & He & _).
    eexists _, _. exact He.
  - eexists _, _.
    exact (classify_service TableServiceRegistrations change h p _ TableServiceRegistrations_fresh Ht Ha Hp).
  - destruct Hupsert as [Hd Hafter]; [upsert_side Ht ..|].
    eexists _, _. exact (classify_eval change h p _ Hd Ht Hafter Hp).
  - destruct Hupsert as [Hd Hafter]; [upsert_side Ht ..|].
    eexists _, _. exact (classify_job change h p _ Hd Ht Hafter Hp).
  - destruct Hupsert as [Hd Hafter]; [upsert_side Ht ..|].
    destruct (classify_alloc TableServiceRegistrations change h p _ Hd Ht Hafter Hp) as (p' & He & _).
    eexists _, _. exact He.
  - destruct Hupsert as [Hd Hafter]; [upsert_side Ht ..|].
    eexists _, _. exact (classify_deployment change h p _ Hd Ht Hafter Hp).
Qed.

Lemma classifies_classifiable h change e h' :
  classify change h = Some (Some e, h') ->
  classifiable TableServiceRegistrations h change.
Proof.
  intros He.
  destruct (authoritative change) as [p|] eqn:Ha.
  2:{ rewrite (classify_absent TableServiceRegistrations change h Ha) in He. discriminate He. }
  destruct (h !! p) as [o|] eqn:Hp.
  2:{ rewrite (classify_dangling change h p Ha Hp) in He. discriminate He. }
  destruct (decide (table_of TableServiceRegistrations o = Some (Table change)))
    as [Ht|Ht].
  2:{ rewrite (classify_mismatch TableServiceRegistrations change h p o Ha Hp Ht) in He. discriminate He. }
  exists p, o. repeat (split; [assumption|]).
  intros Hd.
  destruct (decide (Table change ∈ delete_tables TableServiceRegistrations))
    as [Hin|Hin]; [exact Hin|].
  rewrite (classify_deleted_other TableServiceRegistrations change h Hd Hin) in He. discriminate He.
Qed.

Lemma classifies_true h change :
  classifies TableServiceRegistrations h change = true <->
  classifiable TableServiceRegistrations h change.
Proof.
  unfold classifies. split.
  - destruct (classify change h) as [[[e|] h']|] eqn:He; try discriminate.
    intros _. exact (classifies_classifiable h change e h' He).
  - intros Hc. destruct (classifiable_classifies h change Hc) as (e & h' & He).
    now rewrite He.
Qed.

(** The verdict on a change whose snapshot is stored does not depend on
    what the store holds besides. *)
Lemma classifies_extend (h h1 : heap) change :
  h ⊆ h1 -> allocated h change ->
  classifies TableServiceRegistrations h1 change =
  classifies TableServiceRegistrations h change.
Proof.
  intros Hsub Halloc.
  apply eq_true_iff_eq. rewrite !classifies_true. split.
  - intros (p & o & Ha & Hp & Ht & Hd).
    destruct (Halloc p Ha) as [o' Hp'].
    pose proof (lookup_weaken _ _ _ _ Hp' Hsub) as Hp1.
    rewrite Hp in Hp1. injection Hp1 as ->.
    now exists p, o'.
  - intros (p & o & Ha & Hp & Ht & Hd).
    exists p, o. split; [exact Ha|]. split; [|now split].
    exact (lookup_weaken _ _ _ _ Hp Hsub).
Qed.

Abbreviation range := (range_Changes TableServiceRegistrations).

(** The loop takes every change that classifies, and no other. *)
Lemma range_filter ty index cs :
  forall events h0 h,
    h0 ⊆ h ->
    Forall (allocated h0) cs ->
    exists events' h',
      range ty index cs events h = Some (events ++ events', h') /\
      Forall2 (classified_in TableServiceRegistrations h0 ty index)
        (filter (fun c => classifies TableServiceRegistrations h0 c = true) cs) events'.
Proof.
  induction cs as [|c cs IH]; intros events h0 h Hsub Hall.
  - exists [], h. rewrite app_nil_r. split; [reflexivity|]. constructor.
  - apply Forall_cons in Hall as [Hc Hall].
    destruct (classify_total TableServiceRegistrations c h) as (r & h1 & E & Hsub1 & _).
    rewrite (range_cons _ _ _ _ _ _ _ _ _ E).
    assert (Hsub01 : h0 ⊆ h1) by (now transitivity h).
    pose proof (classifies_extend h0 h c Hsub Hc) as Hsame.
    unfold classifies at 1 in Hsame. rewrite E in Hsame.
    destruct r as [e0|].
    + destruct (IH (events ++ [stamp ty index e0]) h0 h1 Hsub01 Hall)
        as (events' & h' & Hr & Hf).
      exists (stamp ty index e0 :: events'), h'.
      rewrite <- app_assoc in Hr. split; [exact Hr|].
      rewrite filter_cons_True by (now symmetry).
      constructor; [|exact Hf].
      exists h, h1, e0. now repeat split.
    + destruct (IH events h0 h1 Hsub01 Hall) as (events' & h' & Hr & Hf).
      exists events', h'. split; [exact Hr|].
      rewrite filter_cons_False; [exact Hf|].
      rewrite <- Hsame. discriminate.
Qed.

End Dispatch.

(** ** The shape of the events *)

Section Shape.

Variable TableServiceRegistrations : string.

Abbreviation classify := (eventFromChange TableServiceRegistrations).

Lemma classify_shape change h :
  exists r h',
    classify change h = Some (r, h') /\
    forall e, r = Some e -> well_shaped change h h' e.
Proof.
  unfold eventFromChange, well_shaped, authoritative.
  destruct (Deleted change) eqn:Hd;
    repeat (match goal with
            | |- context [if String.eqb ?a ?b then _ else _] =>
                let E := fresh "E" in
                destruct (String.eqb a b) eqn:E;
                [apply String.eqb_eq in E|clear E]
            end);
    try (exists None, h; split; [reflexivity | discriminate]);
    match goal with
    | |- context [bind (type_assert ?proj ?v) _ h] =>
        destruct (type_assert_cases proj v h) as [Ea | (p & o & x & Hv & Hp & Ho & Ea)];
          run_with Ea;
          [exists None, h; split; [reflexivity | discriminate]|]
    end;
    try (apply to_Node_inv in Ho; subst o;
         destruct (Node_Sanitize_spec p h x Hp) as (p' & Hs & Hfresh);
         run_with Hs;
         run_fields (lookup_insert_eq h p' (ObjNode {| Node_ID := Node_ID x; Node_SecretID := "" |}));
         eexists _, _; split; [reflexivity|];
         intros event [= <-]; split; [reflexivity | intros Hn; contradiction]);
    try (apply to_Allocation_inv in Ho; subst o;
         destruct (Allocation_Copy_spec p h x Hp) as (p' & Hc & Hfresh);
         assert (Hne : p' <> p) by congruence;
         run_with Hc;
         pose proof (lookup_insert_eq h p' (ObjAllocation x)) as Hp1;
         run_fields Hp1;
         run_with (set_Allocation_Job_spec p' _ x None Hp1);
         rewrite insert_insert_eq;
         assert (Hp2 : <[p' := ObjAllocation (without_Job x)]> h !! p = Some (ObjAllocation x))
           by (now rewrite lookup_insert_ne);
         fold (without_Job x);
         run_fields Hp2;
         eexists _, _; split; [reflexivity|];
         intros event [= <-]; split; [reflexivity | intros _ Hn; contradiction]);
    try (destruct o; simpl in Ho; try discriminate Ho;
         run_fields Hp;
         eexists _, _; split; [reflexivity|];
         intros event [= <-]; split; [reflexivity | intros _ _; split; [reflexivity|]];
         simpl; now rewrite Hv).
Qed.

End Shape.

Section LoopFacts.

Variable TableServiceRegistrations : string.

Abbreviation range := (range_Changes TableServiceRegistrations).

(** The slice handed to the loop is a prefix of its result. *)
Lemma range_acc ty index cs :
  forall events h,
    range ty index cs events h =
      match range ty index cs [] h with
      | Some (events', h') => Some (events ++ events', h')
      | None => None
      end.
Proof.
  induction cs as [|c cs IH]; intros events h.
  - simpl. unfold ret. now rewrite app_nil_r.
  - destruct (classify_total TableServiceRegistrations c h) as (r & h1 & E & _).
    rewrite !(range_cons _ _ _ _ _ _ _ _ _ E).
    destruct r as [e0|]; [|apply IH].
    rewrite (IH (events ++ [stamp ty index e0])), (IH ([] ++ [stamp ty index e0])).
    destruct (range ty index cs [] h1) as [[events' h']|]; [|reflexivity].
    now rewrite <- app_assoc.
Qed.

Lemma Forall2_classified_shaped h ty index picked events :
  Forall2 (classified_in TableServiceRegistrations h ty index) picked events ->
  Forall (fun e => topic_of_payload (Event_Payload e) = Some (Event_Topic e)) events.
Proof.
  induction 1 as [|c e picked events (h1 & h2 & e0 & _ & Hc & ->) _ IH];
    constructor; [|exact IH].
  destruct (classify_shape TableServiceRegistrations c h1) as (r & h' & Hr & Hshape).
  rewrite Hc in Hr. injection Hr as <- <-.
  exact (proj1 (Hshape e0 eq_refl)).
Qed.

End LoopFacts.

(** ** Further properties of the classifier *)

(** X1. An upsert on the evaluation table whose [After] is an evaluation
    gives an event with topic Evaluation, the evaluation's id as key, its
    namespace, and its job id and deployment id as filter keys; the
    payload holds the pointer of the change and the store is as it was. *)
Theorem eventFromChange_evaluation_upsert TableServiceRegistrations
    (change : Change) (h : heap) (p : loc) (ev : Evaluation) :
  Deleted change = false ->
  Table change = "evals" ->
  After change = Some p ->
  h !! p = Some (ObjEvaluation ev) ->
  exists e,
    eventFromChange TableServiceRegistrations change h = Some (Some e, h) /\
    Event_Topic e = TopicEvaluation /\
    Event_Key e = Evaluation_ID ev /\
    Event_Namespace e = Evaluation_Namespace ev /\
    Event_FilterKeys e = [Evaluation_JobID ev; Evaluation_DeploymentID ev] /\
    Event_Payload e = EvaluationEvent p.
Proof.
  intros Hd Ht Ha Hp. eexists.
  split; [exact (classify_eval TableServiceRegistrations change h p ev Hd Ht Ha Hp)|].
  repeat split.
Qed.

Lemma eventFromChange_evaluation_upsert_witness :
  exists e,
    eventFromChange Sample.service_registrations (Sample.upsert "evals" 1%positive)
      Sample2.store = Some (Some e, Sample2.store) /\
    Event_Topic e = TopicEvaluation /\
    Event_Key e = "e1" /\
    Event_Namespace e = "default" /\
    Event_FilterKeys e = ["web"; "d1"] /\
    Event_Payload e = EvaluationEvent 1%positive.
Proof.
  apply (eventFromChange_evaluation_upsert Sample.service_registrations
           (Sample.upsert "evals" 1%positive) Sample2.store 1%positive Sample2.eval1);
    reflexivity.
Defined.

(** X2. An upsert on the job table whose [After] is a job gives an event
    with topic Job, the job's id as key, its namespace and no filter key;
    the payload holds the pointer of the change and the store is as it
    was. *)
Theorem eventFromChange_job_upsert TableServiceRegistrations
    (change : Change) (h : heap) (p : loc) (j : Job) :
  Deleted change = false ->
  Table change = "jobs" ->
  After change = Some p ->
  h !! p = Some (ObjJob j) ->
  exists e,
    eventFromChange TableServiceRegistrations change h = Some (Some e, h) /\
    Event_Topic e = TopicJob /\
    Event_Key e = Job_ID j /\
    Event_Namespace e = Job_Namespace j /\
    Event_FilterKeys e = [] /\
    Event_Payload e = JobEvent p.
Proof.
  intros Hd Ht Ha Hp. eexists.
  split; [exact (classify_job TableServiceRegistrations change h p j Hd Ht Ha Hp)|].
  repeat split.
Qed.

Lemma eventFromChange_job_upsert_witness :
  exists e,
    eventFromChange Sample.service_registrations (Sample.upsert "jobs" 2%positive)
      Sample2.store = Some (Some e, Sample2.store) /\
    Event_Topic e = TopicJob /\
    Event_Key e = "web" /\
    Event_Namespace e = "default" /\
    Event_FilterKeys e = [] /\
    Event_Payload e = JobEvent 2%positive.
Proof.
  apply (eventFromChange_job_upsert Sample.service_registrations
           (Sample.upsert "jobs" 2%positive) Sample2.store 2%positive Sample2.job1);
    reflexivity.
Defined.

(** X3. An upsert on the deployment table whose [After] is a deployment
    gives an event with topic Deployment, the deployment's id as key, its
    namespace, and its job id as the one filter key; the payload holds the
    pointer of the change and the store is as it was. *)
Theorem eventFromChange_deployment_upsert TableServiceRegistrations
    (change : Change) (h : heap) (p : loc) (d : Deployment) :
  Deleted change = false ->
  Table change = "deployment" ->
  After change = Some p ->
  h !! p = Some (ObjDeployment d) ->
  exists e,
    eventFromChange TableServiceRegistrations change h = Some (Some e, h) /\
    Event_Topic e = TopicDeployment /\
    Event_Key e = Deployment_ID d /\
    Event_Namespace e = Deployment_Namespace d /\
    Event_FilterKeys e = [Deployment_JobID d] /\
    Event_Payload e = DeploymentEvent p.
Proof.
  intros Hd Ht Ha Hp. eexists.
  split; [exact (classify_deployment TableServiceRegistrations change h p d Hd Ht Ha Hp)|].
  repeat split.
Qed.

Lemma eventFromChange_deployment_upsert_witness :
  exists e,
    eventFromChange Sample.service_registrations (Sample.upsert "deployment" 3%positive)
      Sample2.store = Some (Some e, Sample2.store) /\
    Event_Topic e = TopicDeployment /\
    Event_Key e = "d1" /\
    Event_Namespace e = "default" /\
    Event_FilterKeys e = ["web"] /\
    Event_Payload e = DeploymentEvent 3%positive.
Proof.
  apply (eventFromChange_deployment_upsert Sample.service_registrations
           (Sample.upsert "deployment" 3%positive) Sample2.store 3%positive
           Sample2.deployment1);
    reflexivity.
Defined.

(** X4. An upsert on the auth method table whose [After] is an auth method
    gives an event with topic AuthMethod, the method's name as key, no
    namespace and no filter key; the payload holds the pointer of the
    change and the store is as it was. *)
Theorem eventFromChange_auth_method_upsert TableServiceRegistrations
    (change : Change) (h : heap) (p : loc) (m : AuthMethod) :
  Deleted change = false ->
  Table change = "auth_method" ->
  After change = Some p ->
  h !! p = Some (ObjAuthMethod m) ->
  exists e,
    eventFromChange TableServiceRegistrations change h = Some (Some e, h) /\
    Event_Topic e = TopicAuthMethod /\
    Event_Key e = AuthMethod_Name m /\
    Event_Namespace e = "" /\
    Event_FilterKeys e = [] /\
    Event_Payload e = AuthMethodEvent p.
Proof.
  intros Hd Ht Ha Hp. eexists.
  split; [exact (classify_auth_method TableServiceRegistrations change h p m Hd Ht Ha Hp)|].
  repeat split.
Qed.

Lemma eventFromChange_auth_method_upsert_witness :
  exists e,
    eventFromChange Sample.service_registrations (Sample.upsert "auth_method" 4%positive)
      Sample2.store = Some (Some e, Sample2.store) /\
    Event_Topic e = TopicAuthMethod /\
    Event_Key e = "oidc" /\
    Event_Namespace e = "" /\
    Event_FilterKeys e = [] /\
    Event_Payload e = AuthMethodEvent 4%positive.
Proof.
  apply (eventFromChange_auth_method_upsert Sample.service_registrations
           (Sample.upsert "auth_method" 4%positive) Sample2.store 4%positive
           Sample2.method1);
    reflexivity.
Defined.

(** X5. The classifier gives an event exactly for the changes the rule of
    the dispatch accepts: the authoritative snapshot is a stored object of
    the type of the change's table and, when the change is a delete, the
    table is one of the four the delete path knows. *)
Theorem eventFromChange_event_iff_classifiable TableServiceRegistrations
    (change : Change) (h : heap) :
  TableServiceRegistrations ∉ literal_tables ->
  (exists e h', eventFromChange TableServiceRegistrations change h = Some (Some e, h'))
  <-> classifiable TableServiceRegistrations h change.
Proof.
  intros Hfresh. split.
  - intros (e & h' & He).
    exact (classifies_classifiable TableServiceRegistrations h change e h' He).
  - exact (classifiable_classifies TableServiceRegistrations Hfresh h change).
Qed.

Lemma eventFromChange_event_iff_classifiable_witness :
  (exists e h',
     eventFromChange Sample.service_registrations (Sample.delete "nodes" 3%positive)
       Sample.store = Some (Some e, h'))
  <-> classifiable Sample.service_registrations Sample.store
        (Sample.delete "nodes" 3%positive).
Proof.
  apply (eventFromChange_event_iff_classifiable Sample.service_registrations
           (Sample.delete "nodes" 3%positive) Sample.store).
  intros Hin.
  repeat (apply elem_of_cons in Hin as [Hin|Hin]; [discriminate Hin|]).
  now apply elem_of_nil in Hin.
Defined.

(** ** Further properties of the batch assembler *)

(** X6. When the authoritative snapshots of the changes are objects of the
    store, the batch under a mapped write kind holds one event for every
    change that classifies, in the order of the changes, and none
    besides: its events are the stamped events of exactly the changes
    that [classifies] accepts in the store of the call. *)
Theorem eventsFromChanges_takes_every_classifiable_change {ReadTxn}
    TableServiceRegistrations (tx : ReadTxn) (changes : Changes) (h : heap)
    (eventType : EventType) :
  TableServiceRegistrations ∉ literal_tables ->
  MsgTypeEvents !! Changes_MsgType changes = Some eventType ->
  Forall (allocated h) (Changes_Changes changes) ->
  exists batch h',
    eventsFromChanges TableServiceRegistrations tx changes h = Some (Some batch, h') /\
    Forall2 (classified_in TableServiceRegistrations h eventType (Changes_Index changes))
      (filter (fun c => classifies TableServiceRegistrations h c = true)
         (Changes_Changes changes))
      (Events_Events batch) /\
    length (Events_Events batch) =
      length (filter (fun c => classifies TableServiceRegistrations h c = true)
                (Changes_Changes changes)).
Proof.
  intros Hfresh Hm Halloc.
  destruct (range_filter TableServiceRegistrations Hfresh eventType (Changes_Index changes)
              (Changes_Changes changes) [] h h (reflexivity h) Halloc)
    as (events & h' & Hr & Hf).
  exists {| Events_Index := Changes_Index changes; Events_Events := events |}, h'.
  split; [|split; [exact Hf | symmetry; exact (Forall2_length _ _ _ Hf)]].
  unfold eventsFromChanges. rewrite Hm. now run_with Hr.
Qed.

Lemma eventsFromChanges_takes_every_classifiable_change_witness :
  exists batch h',
    eventsFromChanges Sample.service_registrations tt Sample.alloc_update Sample.store =
      Some (Some batch, h') /\
    Forall2 (classified_in Sample.service_registrations Sample.store
               TypeAllocationUpdated 7)
      (filter (fun c => classifies Sample.service_registrations Sample.store c = true)
         (Changes_Changes Sample.alloc_update))
      (Events_Events batch) /\
    length (Events_Events batch) =
      length (filter (fun c => classifies Sample.service_registrations Sample.store c = true)
                (Changes_Changes Sample.alloc_update)).
Proof.
  apply (eventsFromChanges_takes_every_classifiable_change Sample.service_registrations
           tt Sample.alloc_update Sample.store TypeAllocationUpdated).
  - intros Hin.
    repeat (apply elem_of_cons in Hin as [Hin|Hin]; [discriminate Hin|]).
    now apply elem_of_nil in Hin.
  - vm_compute. reflexivity.
  - repeat constructor; intros p Hp; injection Hp as <-.
    + exists (ObjAllocation Sample.alloc1). vm_compute. reflexivity.
    + exists (ObjNode Sample.node1). vm_compute. reflexivity.
    + exists (ObjNode Sample.node1). vm_compute. reflexivity.
Defined.

(** X7. In every batch the payload wrapper of each event is the one of
    the event's topic. *)
Theorem eventsFromChanges_payload_matches_topic {ReadTxn} TableServiceRegistrations
    (tx : ReadTxn) (changes : Changes) (h : heap) :
  exists r h',
    eventsFromChanges TableServiceRegistrations tx changes h = Some (r, h') /\
    match r with
    | Some batch =>
        Forall (fun e => topic_of_payload (Event_Payload e) = Some (Event_Topic e))
          (Events_Events batch)
    | None => True
    end.
Proof.
  unfold eventsFromChanges.
  destruct (MsgTypeEvents !! Changes_MsgType changes) as [eventType|].
  - destruct (range_spec TableServiceRegistrations eventType (Changes_Index changes)
                (Changes_Changes changes) [] h)
      as (events & h' & Hr & _ & picked & _ & Hall).
    eexists _, h'. run_with Hr. split; [reflexivity|].
    exact (Forall2_classified_shaped _ _ _ _ _ _ Hall).
  - now exists None, h.
Qed.

(** The tables whose branches build the payload from a copy ([nodes],
    [allocs]) or through [NewACLTokenEvent] ([acl_token]). *)
Lemma range_no_copy TableServiceRegistrations ty index cs :
  forall events h,
    Forall (fun c => Table c ∉ ["nodes"; "allocs"; "acl_token"]) cs ->
    exists events',
      range_Changes TableServiceRegistrations ty index cs events h =
        Some (events ++ events', h) /\
      Forall2 (fun c e => payload_pointer (Event_Payload e) = authoritative c)
        (filter (fun c => classifies TableServiceRegistrations h c = true) cs) events'.
Proof.
  induction cs as [|c cs IH]; intros events h Hall.
  - exists []. rewrite app_nil_r. split; [reflexivity|]. constructor.
  - apply Forall_cons in Hall as [Hc Hall].
    assert (Hnode : Table c <> "nodes").
    { intros Ht. apply Hc. rewrite Ht. apply list_elem_of_here. }
    assert (Halloc : Table c <> "allocs").
    { intros Ht. apply Hc. rewrite Ht. apply list_elem_of_further, list_elem_of_here. }
    destruct (classify_shape TableServiceRegistrations c h) as (r & h1 & E & Hshape).
    destruct (classify_total TableServiceRegistrations c h) as (r' & h1' & E' & _ & Hnone).
    rewrite E in E'. injection E' as <- <-.
    rewrite (range_cons _ _ _ _ _ _ _ _ _ E).
    destruct r as [e0|].
    + destruct (Hshape e0 eq_refl) as [_ Hpure].
      destruct (Hpure Hnode Halloc) as [-> Hptr].
      destruct (IH (events ++ [stamp ty index e0]) h Hall) as (events' & Hr & Hf).
      exists (stamp ty index e0 :: events').
      rewrite <- app_assoc in Hr. split; [exact Hr|].
      rewrite filter_cons_True by (unfold classifies; now rewrite E).
      constructor; [exact Hptr | exact Hf].
    + rewrite (Hnone eq_refl) in *.
      destruct (IH events h Hall) as (events' & Hr & Hf).
      exists events'. split; [exact Hr|].
      rewrite filter_cons_False; [exact Hf|].
      unfold classifies. rewrite E. discriminate.
Qed.

(** X8. A transaction none of whose changes is on the node, the
    allocation or the token table is translated without a copy: the store
    is left as it is, the batch holds one event for each change that
    classifies, in their order, and the payload of each event holds the
    very pointer of the authoritative snapshot of its change. *)
Theorem eventsFromChanges_payloads_alias_snapshots {ReadTxn} TableServiceRegistrations
    (tx : ReadTxn) (changes : Changes) (h : heap) (eventType : EventType) :
  MsgTypeEvents !! Changes_MsgType changes = Some eventType ->
  Forall (fun c => Table c ∉ ["nodes"; "allocs"; "acl_token"]) (Changes_Changes changes) ->
  exists batch,
    eventsFromChanges TableServiceRegistrations tx changes h = Some (Some batch, h) /\
    Forall2 (fun c e => payload_pointer (Event_Payload e) = authoritative c)
      (filter (fun c => classifies TableServiceRegistrations h c = true)
         (Changes_Changes changes))
      (Events_Events batch).
Proof.
  intros Hm Hall.
  destruct (range_no_copy TableServiceRegistrations eventType (Changes_Index changes)
              (Changes_Changes changes) [] h Hall) as (events & Hr & Hf).
  exists {| Events_Index := Changes_Index changes; Events_Events := events |}.
  split; [|exact Hf].
  unfold eventsFromChanges. rewrite Hm. now run_with Hr.
Qed.

Lemma eventsFromChanges_payloads_alias_snapshots_witness :
  exists batch,
    eventsFromChanges Sample.service_registrations tt Sample3.job_register Sample3.store =
      Some (Some batch, Sample3.store) /\
    Forall2 (fun c e => payload_pointer (Event_Payload e) = authoritative c)
      (filter (fun c => classifies Sample.service_registrations Sample3.store c = true)
         (Changes_Changes Sample3.job_register))
      (Events_Events batch).
Proof.
  apply (eventsFromChanges_payloads_alias_snapshots Sample.service_registrations tt
           Sample3.job_register Sample3.store TypeJobRegistered).
  - vm_compute. reflexivity.
  - repeat constructor; intros Hin;
      repeat (apply elem_of_cons in Hin as [Hin|Hin]; [discriminate Hin|]);
      now apply elem_of_nil in Hin.
Defined.

(** The six changes of the sample that classify give six events, whose
    payloads hold the pointers 2, 1, 3, 4, 5 and 6 of their snapshots. *)
Example job_register_payloads :
  match eventsFromChanges Sample.service_registrations tt Sample3.job_register
          Sample3.store with
  | Some (Some batch, _) =>
      map (fun e => payload_pointer (Event_Payload e)) (Events_Events batch)
  | _ => []
  end =
  [Some 2%positive; Some 1%positive; Some 3%positive; Some 4%positive;
   Some 5%positive; Some 6%positive].
Proof. vm_compute. reflexivity. Qed.

(** X9. Translating a transaction whose changes are [cs1 ++ cs2] is
    translating [cs1], then [cs2] in the store the first translation
    leaves: the events of the batch are those of the first batch followed
    by those of the second. *)
Theorem eventsFromChanges_app {ReadTxn} TableServiceRegistrations (tx : ReadTxn)
    (index : N) (msgType : MessageType) (cs1 cs2 : list Change)
    (h h1 h2 : heap) (batch1 batch2 : Events) :
  eventsFromChanges TableServiceRegistrations tx
    {| Changes_Index := index; Changes_Changes := cs1; Changes_MsgType := msgType |} h
    = Some (Some batch1, h1) ->
  eventsFromChanges TableServiceRegistrations tx
    {| Changes_Index := index; Changes_Changes := cs2; Changes_MsgType := msgType |} h1
    = Some (Some batch2, h2) ->
  eventsFromChanges TableServiceRegistrations tx
    {| Changes_Index := index; Changes_Changes := cs1 ++ cs2;
       Changes_MsgType := msgType |} h
    = Some (Some {| Events_Index := index;
                    Events_Events := Events_Events batch1 ++ Events_Events batch2 |}, h2).
Proof.
  unfold eventsFromChanges; cbn [Changes_MsgType Changes_Index Changes_Changes].
  destruct (MsgTypeEvents !! msgType) as [eventType|]; [|discriminate].
  unfold bind at 1 2.
  destruct (range_Changes TableServiceRegistrations eventType index cs1 [] h)
    as [[events1 h1']|] eqn:Hr1; [|discriminate].
  intros [= <- <-].
  destruct (range_Changes TableServiceRegistrations eventType index cs2 [] h1')
    as [[events2 h2']|] eqn:Hr2; [|discriminate].
  intros [= <- <-].
  assert (Hr : range_Changes TableServiceRegistrations eventType index (cs1 ++ cs2) [] h
               = Some (events1 ++ events2, h2')).
  { rewrite range_app, Hr1, range_acc, Hr2. reflexivity. }
  run_with Hr. reflexivity.
Qed.

Lemma eventsFromChanges_app_witness :
  eventsFromChanges Sample.service_registrations tt
    {| Changes_Index := 11;
       Changes_Changes := [Sample.upsert "jobs" 2%positive] ++
                          [Sample.upsert "evals" 1%positive];
       Changes_MsgType := JobRegisterRequestType |} Sample2.store
  = Some (Some {| Events_Index := 11;
                  Events_Events :=
                    Events_Events
                      {| Events_Index := 11;
                         Events_Events :=
                           [stamp TypeJobRegistered 11
                              (Event_lit TopicJob "web" [] "default" (JobEvent 2%positive))] |}
                    ++ Events_Events
                      {| Events_Index := 11;
                         Events_Events :=
                           [stamp TypeJobRegistered 11
                              (Event_lit TopicEvaluation "e1" ["web"; "d1"] "default"
                                 (EvaluationEvent 1%positive))] |} |},
          Sample2.store).
Proof.
  apply (eventsFromChanges_app Sample.service_registrations tt 11 JobRegisterRequestType
           [Sample.upsert "jobs" 2%positive] [Sample.upsert "evals" 1%positive]
           Sample2.store Sample2.store Sample2.store);
    vm_compute; reflexivity.
Defined.

(** ** A dropped change among valid ones *)

Lemma Forall2_elem_of_l {A B} (P : A -> B -> Prop) (l : list A) (k : list B) (x : A) :
  Forall2 P l k -> x ∈ l -> exists y, y ∈ k /\ P x y.
Proof.
  induction 1 as [|a b l k Hab _ IH]; intros Hin.
  - now apply elem_of_nil in Hin.
  - apply elem_of_cons in Hin as [->|Hin].
    + exists b. split; [apply list_elem_of_here | exact Hab].
    + destruct (IH Hin) as (y & Hy & Hxy).
      exists y. split; [now apply list_elem_of_further | exact Hxy].
Qed.



(** Both valid changes of the sample classify, so both have their event in
    the batch: the one that comes with the dropped change has two events,
    the allocation's and the node's. *)
Example drop_on_mismatch_valid_changes_classify :
  filter (fun c => classifies Sample.service_registrations Sample.store c = true)
    (Changes_Changes Sample.alloc_update) =
  [Sample.upsert "allocs" 1%positive; Sample.delete "nodes" 3%positive].
Proof. vm_compute. reflexivity. Qed.

(** * Properties of the command [tls cert create] *)

Module TLSFacts.

Import tls.

Section Facts.

Context (host : Host).

Implicit Types (c : TLSCertCreateCommand) (args : list string)
  (t : list (action host)).

Lemma bind_inr {A B} (m : Cmd host A) (k : A -> Cmd host B) t a t' :
  m t = (inr a, t') -> bind host m k t = k a t'.
Proof. intros E. unfold bind. now rewrite E. Qed.

Lemma bind_inl {A B} (m : Cmd host A) (k : A -> Cmd host B) t code t' :
  m t = (inl code, t') -> bind host m k t = (inl code, t').
Proof. intros E. unfold bind. now rewrite E. Qed.

Ltac rejected :=
  eexists; split;
  [cbv [bind emit exit]; rewrite <- ?app_assoc; reflexivity|];
  split; [discriminate | repeat constructor].

(** The checks pass exactly on the valid commands; otherwise they only
    add error messages, at least one, and return 1. *)
Lemma check_flags_spec c args t :
  if valid c args then check_flags host c args t = (inr tt, t)
  else exists errs,
      check_flags host c args t = (inl 1%Z, t ++ errs) /\
      errs <> [] /\ Forall (fun a => is_error host a = true) errs.
Proof.
  unfold valid, check_flags.
  assert (Hlen : ((Z.of_nat (length args) <? 0)%Z || (1 <? Z.of_nat (length args))%Z)
                 = negb (bool_decide (length args <= 1)%nat)).
  { destruct (bool_decide_reflect (length args <= 1)%nat) as [H|H]; simpl.
    - apply orb_false_intro; [apply Z.ltb_ge | apply Z.ltb_ge]; lia.
    - apply orb_true_intro. right. apply Z.ltb_lt. lia. }
  rewrite Hlen.
  destruct (bool_decide (length args <= 1)%nat); simpl; [|rejected].
  destruct (String.eqb (ca c) ""); simpl; [rejected|].
  destruct (String.eqb (key c) ""); simpl; [rejected|].
  destruct (server c), (client c), (cli c); simpl; try rejected;
    destruct (String.eqb (node c) ""); simpl; try reflexivity; rejected.
Qed.

(** The two loops over the flags keep the non-empty entries, in order. *)
Lemma foldl_nonempty {A} (f : string -> A) (l : list string) :
  forall acc,
    foldl (fun acc d => if (0 <? String.length d)%nat then acc ++ [f d] else acc) acc l =
    acc ++ (f <$> filter (fun d => d <> "") l).
Proof.
  induction l as [|d l IH]; intros acc.
  - simpl. now rewrite app_nil_r.
  - destruct d as [|a d].
    + rewrite filter_cons_False by (intros H; now apply H). simpl. apply IH.
    + rewrite filter_cons_True by discriminate.
      rewrite fmap_cons. simpl foldl. rewrite IH. now rewrite <- app_assoc.
Qed.

Lemma find_names_Some prefix n :
  forall i names,
    find_names host prefix n i = Some names ->
    exists k, (k <= n)%nat /\
      names = (cert_name prefix (i + N.of_nat k), key_name prefix (i + N.of_nat k)) /\
      both_free host prefix (i + N.of_nat k) = true /\
      forall j, (j < k)%nat -> both_free host prefix (i + N.of_nat j) = false.
Proof.
  induction n as [|n IH]; intros i names; simpl;
    fold (both_free host prefix i); destruct (both_free host prefix i) eqn:Hfree.
  - intros [= <-]. exists 0%nat. rewrite N.add_0_r.
    split; [lia|]. split; [reflexivity|]. split; [exact Hfree|]. intros j Hj; lia.
  - discriminate.
  - intros [= <-]. exists 0%nat. rewrite N.add_0_r.
    split; [lia|]. split; [reflexivity|]. split; [exact Hfree|]. intros j Hj; lia.
  - intros Hfind. destruct (IH _ _ Hfind) as (k & Hk & -> & Hk_free & Hlt).
    exists (S k).
    replace (i + N.of_nat (S k))%N with (i + 1 + N.of_nat k)%N by lia.
    split; [lia|]. split; [reflexivity|]. split; [exact Hk_free|].
    intros [|j] Hj.
    + now rewrite N.add_0_r.
    + replace (i + N.of_nat (S j))%N with (i + 1 + N.of_nat j)%N by lia.
      apply Hlt. lia.
Qed.

Lemma find_names_None prefix n :
  forall i,
    find_names host prefix n i = None <->
    forall k, (k <= n)%nat -> both_free host prefix (i + N.of_nat k) = false.
Proof.
  induction n as [|n IH]; intros i; simpl;
    fold (both_free host prefix i); destruct (both_free host prefix i) eqn:Hfree.
  - split; [discriminate|]. intros H. specialize (H 0%nat).
    rewrite N.add_0_r, Hfree in H. discriminate H. lia.
  - split; [|reflexivity]. intros _ k Hk.
    replace k with 0%nat by lia. now rewrite N.add_0_r.
  - split; [discriminate|]. intros H. specialize (H 0%nat).
    rewrite N.add_0_r, Hfree in H. discriminate H. lia.
  - rewrite IH. split.
    + intros H [|k] Hk; [now rewrite N.add_0_r|].
      replace (i + N.of_nat (S k))%N with (i + 1 + N.of_nat k)%N by lia.
      apply H. lia.
    + intros H k Hk.
      replace (i + 1 + N.of_nat k)%N with (i + N.of_nat (S k))%N by lia.
      apply H. lia.
Qed.

Lemma max_eq : max = N.to_nat 10000.
Proof. reflexivity. Qed.

#[local] Arguments find_names : simpl never.
#[local] Opaque max.

(** The prefix of the file names: region, role and domain. *)
Lemma role_settings_valid c args t :
  valid c args = true ->
  exists s,
    role_settings host c t = (inr s, t) /\
    settings_prefix s = cluster_region c +:+ "-" +:+ role c +:+ "-" +:+ domain c /\
    settings_name s = role c +:+ "." +:+ cluster_region c +:+ "." +:+ domain c /\
    settings_DNSNames s =
      (if cli c then []
       else additional_names host c ++
            (if server c && negb (String.eqb (node c) "")
             then [node c +:+ ".server." +:+ cluster_region c +:+ "." +:+ domain c]
             else [])) ++
      [settings_name s; "localhost"] /\
    settings_IPAddresses s =
      additional_ips host c ++ (if cli c then [] else [ParseIP host "127.0.0.1"]) /\
    settings_extKeyUsage s =
      (if server c then [ExtKeyUsageServerAuth; ExtKeyUsageClientAuth]
       else if client c then [ExtKeyUsageClientAuth; ExtKeyUsageServerAuth]
       else []).
Proof.
  unfold valid, role_settings, role, additional_names, additional_ips.
  rewrite !foldl_nonempty. intros Hv.
  destruct (server c), (client c), (cli c);
    try (rewrite ?andb_false_r in Hv; simpl in Hv;
         rewrite ?andb_false_r in Hv; discriminate Hv);
    (eexists; split; [reflexivity|]); cbn [settings_prefix settings_name
      settings_DNSNames settings_IPAddresses settings_extKeyUsage andb negb];
    repeat split; rewrite ?app_nil_r; try reflexivity.
  destruct (String.eqb (node c) ""); simpl; rewrite <- ?app_assoc; reflexivity.
Qed.

(** Running the steps of [Run] that follow the search of the file names,
    one case for each way a call of the host can turn out. *)
Ltac run_steps :=
  repeat (cbv beta iota zeta delta [bind ret exit emit try try_unit fst snd];
          rewrite ?app_nil_l;
          match goal with
          | |- context [match ?x with _ => _ end] =>
              lazymatch x with
              | context [match _ with _ => _ end] => fail
              | _ => destruct x eqn:?
              end
          end);
  cbv beta iota zeta delta [bind ret exit emit try try_unit fst snd];
  rewrite ?app_nil_l.

(** A run with invalid flags, and a valid run in its two stages. *)
Lemma run_invalid c args :
  valid c args = false ->
  exists errs,
    run host c args = (1%Z, errs) /\
    errs <> [] /\ Forall (fun a => is_error host a = true) errs.
Proof.
  intros Hv. pose proof (check_flags_spec c args []) as Hcf. rewrite Hv in Hcf.
  destruct Hcf as (errs & Hcf & Hne & Herr).
  exists errs. split; [|now split].
  unfold run, Run_parsed. now rewrite (bind_inl _ _ _ _ _ Hcf).
Qed.

Lemma run_exhausted c args s :
  valid c args = true ->
  role_settings host c [] = (inr s, []) ->
  find_names host (settings_prefix s) max 0 = None ->
  run host c args =
    (1%Z, [Ui_Error "Could not find a filename that doesn't already exist"]).
Proof.
  intros Hv Hs Hfind. pose proof (check_flags_spec c args []) as Hcf. rewrite Hv in Hcf.
  unfold run, Run_parsed.
  rewrite (bind_inr _ _ _ _ _ Hcf), (bind_inr _ _ _ _ _ Hs), Hfind.
  reflexivity.
Qed.

(** Entering a valid run: the checks and the settings are done, the file
    names are found, and the steps that follow are run case by case. *)
Ltac enter_run c args Hv s Hs Hrole cn pn Hfind :=
  let Hcf := fresh "Hcf" in
  pose proof (check_flags_spec c args []) as Hcf; rewrite Hv in Hcf;
  destruct (role_settings_valid c args [] Hv) as (s & Hs & Hrole);
  unfold run, Run_parsed;
  rewrite (bind_inr _ _ _ _ _ Hcf), (bind_inr _ _ _ _ _ Hs);
  destruct (find_names host (settings_prefix s) max 0) as [[cn pn]|] eqn:Hfind.

Ltac in_trace H :=
  simpl in H;
  repeat (apply elem_of_cons in H as [H|H]; [try discriminate H|]);
  try (now apply elem_of_nil in H).

Lemma error_of_errors (errs : list (action host)) a :
  Forall (fun a => is_error host a = true) errs -> a ∈ errs -> is_error host a = true.
Proof. intros Hall Hin. exact (proj1 (Forall_forall _ _) Hall a Hin). Qed.

Lemma last_of_errors (errs : list (action host)) :
  errs <> [] -> Forall (fun a => is_error host a = true) errs ->
  exists msg, last errs = Some (Ui_Error msg).
Proof.
  destruct errs as [|a errs _] using rev_ind; [congruence|].
  intros _ Hall. apply Forall_app in Hall as [_ Hall].
  apply Forall_cons in Hall as [Ha _].
  rewrite last_snoc. destruct a; try discriminate Ha. now eexists.
Qed.

(** [Replace1] on a string that starts with [old], and on one that does
    not hold it. *)
Lemma strip_prefix_append (old rest : string) :
  strip_prefix old (old +:+ rest) = Some rest.
Proof.
  induction old as [|a old IH]; [reflexivity|].
  simpl. now rewrite Ascii.eqb_refl.
Qed.

Lemma strip_prefix_Some (old s rest : string) :
  strip_prefix old s = Some rest -> s = old +:+ rest.
Proof.
  revert s. induction old as [|a old IH]; intros s; simpl.
  - now intros [= ->].
  - destruct s as [|b s]; [discriminate|].
    destruct (Ascii.eqb_spec a b) as [->|]; [|discriminate].
    intros H. now rewrite (IH _ H).
Qed.

Lemma Replace1_unfold (s old new : string) :
  Replace1 s old new =
    match strip_prefix old s with
    | Some rest => new +:+ rest
    | None =>
        match s with
        | EmptyString => EmptyString
        | String a s' => String a (Replace1 s' old new)
        end
    end.
Proof. now destruct s. Qed.

Lemma Replace1_prefix (old new rest : string) :
  Replace1 (old +:+ rest) old new = new +:+ rest.
Proof. now rewrite Replace1_unfold, strip_prefix_append. Qed.

Lemma Replace1_absent (s old new : string) :
  (forall pre post, s <> pre +:+ old +:+ post) -> Replace1 s old new = s.
Proof.
  induction s as [|a s IH]; intros Habs; rewrite Replace1_unfold.
  - destruct (strip_prefix old "") as [rest|] eqn:Hp; [|reflexivity].
    apply strip_prefix_Some in Hp. now destruct (Habs "" rest).
  - destruct (strip_prefix old (String a s)) as [rest|] eqn:Hp.
    + apply strip_prefix_Some in Hp. now destruct (Habs "" rest).
    + f_equal. apply IH. intros pre post ->.
      now destruct (Habs (String a pre) post).
Qed.

(** ** The flags *)

(** X10. With flags that do not pass the checks (more than one argument,
    an empty -ca or -key, not exactly one of -server, -client and -cli, or
    -node without -server) [Run] returns 1 and does nothing but report:
    its trace is one or more error messages. *)
Theorem run_rejects_invalid_flags c args :
  valid c args = false ->
  fst (run host c args) = 1%Z /\
  snd (run host c args) <> [] /\
  Forall (fun a => is_error host a = true) (snd (run host c args)).
Proof.
  intros Hv. destruct (run_invalid c args Hv) as (errs & -> & Hne & Hall).
  now repeat split.
Qed.

(** ** The file names *)

(** X11. Every file [Run] asks to write is one of the pair of the first
    index [i] of 0..10000 whose certificate and key names
    ([region-role-domain-i.pem] and [region-role-domain-i-key.pem]) are
    both reported free: the certificate with mode 0666, the key with mode
    0600. So [Run] never asks to write a file that was reported to exist. *)
Theorem run_writes_first_free_pair c args name data dirPerm filePerm :
  Write name data dirPerm filePerm ∈ snd (run host c args) ->
  exists i,
    (i <= 10000)%N /\
    ((name = cert_name (cluster_region c +:+ "-" +:+ role c +:+ "-" +:+ domain c) i
      /\ filePerm = 438%N) \/
     (name = key_name (cluster_region c +:+ "-" +:+ role c +:+ "-" +:+ domain c) i
      /\ filePerm = 384%N)) /\
    fileDoesNotExist host name = true /\
    both_free host (cluster_region c +:+ "-" +:+ role c +:+ "-" +:+ domain c) i = true /\
    forall j, (j < i)%N ->
      both_free host (cluster_region c +:+ "-" +:+ role c +:+ "-" +:+ domain c) j = false.
Proof.
  destruct (valid c args) eqn:Hv.
  2:{ destruct (run_invalid c args Hv) as (errs & -> & _ & Hall).
      intros Hin. now pose proof (error_of_errors _ _ Hall Hin). }
  enter_run c args Hv s Hs Hrole cn pn Hfind.
  2:{ intros Hin. in_trace Hin. }
  destruct Hrole as (Hprefix & _). rewrite Hprefix in Hfind.
  destruct (find_names_Some _ _ _ _ Hfind) as (k & Hk & [= -> ->] & Hfree & Hbefore).
  rewrite N.add_0_l in *.
  assert (Hwritten :
    (name = cert_name (cluster_region c +:+ "-" +:+ role c +:+ "-" +:+ domain c) (N.of_nat k)
     /\ filePerm = 438%N) \/
    (name = key_name (cluster_region c +:+ "-" +:+ role c +:+ "-" +:+ domain c) (N.of_nat k)
     /\ filePerm = 384%N) ->
    exists i,
      (i <= 10000)%N /\
      ((name = cert_name (cluster_region c +:+ "-" +:+ role c +:+ "-" +:+ domain c) i
        /\ filePerm = 438%N) \/
       (name = key_name (cluster_region c +:+ "-" +:+ role c +:+ "-" +:+ domain c) i
        /\ filePerm = 384%N)) /\
      fileDoesNotExist host name = true /\
      both_free host (cluster_region c +:+ "-" +:+ role c +:+ "-" +:+ domain c) i = true /\
      forall j, (j < i)%N ->
        both_free host (cluster_region c +:+ "-" +:+ role c +:+ "-" +:+ domain c) j = false).
  { intros Hname. exists (N.of_nat k).
    split; [rewrite max_eq in Hk; lia|]. split; [exact Hname|].
    split.
    - unfold both_free in Hfree. apply andb_true_iff in Hfree as [Hc Hp].
      destruct Hname as [[-> _]|[-> _]]; assumption.
    - split; [exact Hfree|]. intros j Hj.
      specialize (Hbefore (N.to_nat j)). rewrite N.add_0_l, N2Nat.id in Hbefore.
      apply Hbefore. lia. }
  clear Hfind Hfree Hbefore.
  run_steps; intros Hin; in_trace Hin;
    injection Hin as -> -> -> ->; apply Hwritten; tauto.
Qed.

(** X12. When the flags are valid and no index of 0..10000 has both of
    its names free, [Run] returns 1 with the one error message that no
    file name could be found: it reads and writes nothing. *)
Theorem run_gives_up_without_free_pair c args :
  valid c args = true ->
  (forall i, (i <= 10000)%N ->
     both_free host (cluster_region c +:+ "-" +:+ role c +:+ "-" +:+ domain c) i = false) ->
  run host c args =
    (1%Z, [Ui_Error "Could not find a filename that doesn't already exist"]).
Proof.
  intros Hv Hnone.
  destruct (role_settings_valid c args [] Hv) as (s & Hs & Hprefix & _).
  apply (run_exhausted c args s Hv Hs).
  rewrite Hprefix. apply find_names_None. intros k Hk.
  rewrite N.add_0_l. apply Hnone. rewrite max_eq in Hk. lia.
Qed.

(** ** The files written *)

Lemma filter_errors (P : action host -> bool) (errs : list (action host)) :
  (forall a, is_error host a = true -> P a = false) ->
  Forall (fun a => is_error host a = true) errs ->
  List.filter P errs = [].
Proof.
  intros HP. induction 1 as [|a errs Ha _ IH]; [reflexivity|].
  simpl. now rewrite (HP a Ha).
Qed.

(** X13. [Run] asks for the write of the certificate (mode 0666), then for
    that of the key (mode 0600), both with directory mode 0755, and for no
    other write. It asks for the key only after the certificate has been
    written, and it returns 0 exactly when the key has been written too:
    a failed write of the key leaves the certificate behind with exit
    code 1. *)
Theorem run_writes_certificate_then_key c args :
  (List.filter (is_write host) (snd (run host c args)) = [] /\
   fst (run host c args) = 1%Z) \/
  (exists cn pub err,
     List.filter (is_write host) (snd (run host c args)) = [Write cn pub 493 438] /\
     WriteAtomicWithPerms host cn pub 493 438 = Some err /\
     fst (run host c args) = 1%Z) \/
  (exists cn pn pub priv,
     List.filter (is_write host) (snd (run host c args)) =
       [Write cn pub 493 438; Write pn priv 493 384] /\
     WriteAtomicWithPerms host cn pub 493 438 = None /\
     fst (run host c args) =
       match WriteAtomicWithPerms host pn priv 493 384 with
       | None => 0%Z
       | Some _ => 1%Z
       end).
Proof.
  destruct (run host c args) as [code trace] eqn:Hrun. cbn [fst snd]. revert Hrun.
  destruct (valid c args) eqn:Hv.
  2:{ destruct (run_invalid c args Hv) as (errs & -> & _ & Hall).
      intros [= <- <-]. left. split; [|reflexivity].
      apply filter_errors; [|exact Hall]. now intros []. }
  enter_run c args Hv s Hs Hrole cn pn Hfind.
  2:{ intros [= <- <-]. left. split; reflexivity. }
  run_steps; intros [= <- <-]; cbn [List.filter is_write app];
    lazymatch goal with
    | |- ([] = [] /\ _) \/ _ => left; split; reflexivity
    | |- ([Write ?a ?b _ _] = [] /\ _) \/ _ =>
        right; left; exists a, b; eexists;
        split; [reflexivity|]; split; [eassumption | reflexivity]
    | |- ([Write ?a ?b _ _; Write ?a' ?b' _ _] = [] /\ _) \/ _ =>
        right; right; exists a, a', b, b';
        split; [reflexivity|]; split; [assumption|];
        match goal with
        | H : WriteAtomicWithPerms host a' b' _ _ = _ |- _ => rewrite H; reflexivity
        end
    end.
Qed.

(** ** The certificate asked for *)

(** X14. For a cli certificate the additional DNS names of the flags are
    dropped: the certificate is asked for the two names
    [cli.region.domain] and [localhost], the additional IP addresses
    alone (no 127.0.0.1), and no extended key usage. *)
Theorem run_cli_drops_additional_dns_names c args opts :
  cli c = true ->
  Generate opts ∈ snd (run host c args) ->
  CertOpts_Name opts = "cli." +:+ cluster_region c +:+ "." +:+ domain c /\
  CertOpts_DNSNames opts =
    ["cli." +:+ cluster_region c +:+ "." +:+ domain c; "localhost"] /\
  CertOpts_IPAddresses opts = additional_ips host c /\
  CertOpts_ExtKeyUsage opts = [].
Proof.
  intros Hcli.
  destruct (valid c args) eqn:Hv.
  2:{ destruct (run_invalid c args Hv) as (errs & -> & _ & Hall).
      intros Hin. now pose proof (error_of_errors _ _ Hall Hin). }
  assert (Hrole' : server c = false /\ client c = false).
  { unfold valid in Hv. rewrite Hcli in Hv.
    destruct (server c), (client c); simpl in Hv;
      rewrite ?andb_false_r in Hv; try discriminate Hv; now split. }
  destruct Hrole' as [Hserver Hclient].
  enter_run c args Hv s Hs Hrole cn pn Hfind.
  2:{ intros Hin. in_trace Hin. }
  destruct Hrole as (_ & Hname & Hdns & Hips & Heku).
  unfold role in Hname. rewrite Hname in Hdns.
  rewrite Hcli, Hserver, ?Hclient in *. simpl in Hdns, Hname. rewrite app_nil_r in Hips.
  run_steps; intros Hin; in_trace Hin; injection Hin as ->;
    cbn [CertOpts_Name CertOpts_DNSNames CertOpts_IPAddresses CertOpts_ExtKeyUsage];
    rewrite Hname, Hdns, Hips, Heku; repeat split; reflexivity.
Qed.

(** X15. For a server or a client certificate the DNS names asked for are
    the non-empty additional names of the flags, trimmed and in their
    order, then [node.server.region.domain] when the server has a -node,
    then [role.region.domain] and [localhost]; the IP addresses are the
    additional ones followed by 127.0.0.1. *)
Theorem run_server_client_names c args opts :
  cli c = false ->
  Generate opts ∈ snd (run host c args) ->
  CertOpts_Name opts = role c +:+ "." +:+ cluster_region c +:+ "." +:+ domain c /\
  CertOpts_Days opts = days c /\
  CertOpts_DNSNames opts =
    additional_names host c ++
    (if server c && negb (String.eqb (node c) "")
     then [node c +:+ ".server." +:+ cluster_region c +:+ "." +:+ domain c]
     else []) ++
    [role c +:+ "." +:+ cluster_region c +:+ "." +:+ domain c; "localhost"] /\
  CertOpts_IPAddresses opts = additional_ips host c ++ [ParseIP host "127.0.0.1"].
Proof.
  intros Hcli.
  destruct (valid c args) eqn:Hv.
  2:{ destruct (run_invalid c args Hv) as (errs & -> & _ & Hall).
      intros Hin. now pose proof (error_of_errors _ _ Hall Hin). }
  enter_run c args Hv s Hs Hrole cn pn Hfind.
  2:{ intros Hin. in_trace Hin. }
  destruct Hrole as (_ & Hname & Hdns & Hips & _).
  rewrite Hname in Hdns. rewrite Hcli in Hdns, Hips. rewrite <- app_assoc in Hdns.
  run_steps; intros Hin; in_trace Hin; injection Hin as ->;
    cbn [CertOpts_Name CertOpts_Days CertOpts_DNSNames CertOpts_IPAddresses];
    rewrite Hname, Hdns, Hips; repeat split; reflexivity.
Qed.

(** ** The files read *)

Lemma Replace1_not_contained (s old new : string) :
  contains s old = false -> Replace1 s old new = s.
Proof.
  induction s as [|a s IH]; intros Hc; rewrite Replace1_unfold.
  - simpl in Hc. destruct (strip_prefix old ""); [discriminate|reflexivity].
  - simpl in Hc. destruct (strip_prefix old (String a s)); [discriminate|].
    f_equal. now apply IH.
Qed.

(** [Run] reads the CA file, then the key file, and no other file; it
    reads the key only when the CA has been read. *)
Lemma run_reads c args :
  List.filter (is_read host) (snd (run host c args)) = [] \/
  (List.filter (is_read host) (snd (run host c args)) =
     [Read (Replace1 (ca c) "#DOMAIN#" (domain c))] /\
   exists err, ReadFile host (Replace1 (ca c) "#DOMAIN#" (domain c)) = Err err) \/
  (List.filter (is_read host) (snd (run host c args)) =
     [Read (Replace1 (ca c) "#DOMAIN#" (domain c));
      Read (Replace1 (key c) "#DOMAIN#" (domain c))] /\
   exists cert, ReadFile host (Replace1 (ca c) "#DOMAIN#" (domain c)) = Ok cert).
Proof.
  destruct (run host c args) as [code trace] eqn:Hrun. cbn [fst snd]. revert Hrun.
  destruct (valid c args) eqn:Hv.
  2:{ destruct (run_invalid c args Hv) as (errs & -> & _ & Hall).
      intros [= <- <-]. left.
      apply filter_errors; [|exact Hall]. intros []; (reflexivity || discriminate). }
  enter_run c args Hv s Hs Hrole cn pn Hfind.
  2:{ intros [= <- <-]. left. reflexivity. }
  run_steps; intros [= <- <-]; cbn [List.filter is_read app];
    lazymatch goal with
    | |- [_] = [] \/ _ => right; left; split; [reflexivity|]; eexists; first [eassumption | reflexivity]
    | |- [_; _] = [] \/ _ => right; right; split; [reflexivity|]; eexists; first [eassumption | reflexivity]
    end.
Qed.

(** X16. A -ca and a -key value that start with the placeholder #DOMAIN#
    (as the default values do) name the files of the domain: [Run] reads
    the CA file [domain ++ rest], then the key file, the placeholder
    replaced once at the start, and no other file; it reads the key only
    when the CA has been read. *)
Theorem run_reads_files_of_domain c args rest1 rest2 :
  ca c = "#DOMAIN#" +:+ rest1 ->
  key c = "#DOMAIN#" +:+ rest2 ->
  List.filter (is_read host) (snd (run host c args)) = [] \/
  (List.filter (is_read host) (snd (run host c args)) = [Read (domain c +:+ rest1)] /\
   exists err, ReadFile host (domain c +:+ rest1) = Err err) \/
  (List.filter (is_read host) (snd (run host c args)) =
     [Read (domain c +:+ rest1); Read (domain c +:+ rest2)] /\
   exists cert, ReadFile host (domain c +:+ rest1) = Ok cert).
Proof.
  intros Hca Hkey. pose proof (run_reads c args) as H.
  rewrite Hca, Hkey, !Replace1_prefix in H. exact H.
Qed.

(** X17. A -ca and a -key value that do not hold the placeholder #DOMAIN#
    are the paths of the files as they stand: [Run] reads the file named
    by -ca, then the file named by -key, and no other file. *)
Theorem run_reads_plain_paths c args :
  contains (ca c) "#DOMAIN#" = false ->
  contains (key c) "#DOMAIN#" = false ->
  List.filter (is_read host) (snd (run host c args)) = [] \/
  (List.filter (is_read host) (snd (run host c args)) = [Read (ca c)] /\
   exists err, ReadFile host (ca c) = Err err) \/
  (List.filter (is_read host) (snd (run host c args)) = [Read (ca c); Read (key c)] /\
   exists cert, ReadFile host (ca c) = Ok cert).
Proof.
  intros Hca Hkey. pose proof (run_reads c args) as H.
  rewrite (Replace1_not_contained _ _ _ Hca), (Replace1_not_contained _ _ _ Hkey) in H.
  exact H.
Qed.

(** ** The exit code *)

(** X18. [Run] returns 0 or 1. It returns 1 exactly when the last thing it
    did was to report an error, and a run that returns 0 has reported
    none. *)
Theorem run_exit_code_reports_errors c args :
  (fst (run host c args) = 0%Z \/ fst (run host c args) = 1%Z) /\
  (fst (run host c args) = 1%Z <->
   exists msg, last (snd (run host c args)) = Some (Ui_Error msg)) /\
  (fst (run host c args) = 0%Z ->
   List.filter (is_error host) (snd (run host c args)) = []).
Proof.
  destruct (run host c args) as [code trace] eqn:Hrun. cbn [fst snd]. revert Hrun.
  destruct (valid c args) eqn:Hv.
  2:{ destruct (run_invalid c args Hv) as (errs & -> & Hne & Hall).
      intros [= <- <-]. split; [now right|]. split; [|discriminate].
      split; [|reflexivity]. intros _. exact (last_of_errors errs Hne Hall). }
  enter_run c args Hv s Hs Hrole cn pn Hfind.
  2:{ intros [= <- <-]. split; [now right|]. split; [|discriminate].
      split; [|reflexivity]. intros _. now eexists. }
  clear Hfind Hrole Hs Hcf Hv.
  run_steps; intros [= <- <-]; cbn [last app List.filter is_error];
    (split; [first [left; reflexivity | right; reflexivity]|]);
    (split; [split; [first [intros _; eexists; reflexivity | discriminate]
                    |first [reflexivity | intros [msg [=]]]]
            |first [reflexivity | discriminate]]).
Qed.

End Facts.

Ltac in_list := repeat first [apply list_elem_of_here | apply list_elem_of_further].

Lemma run_rejects_invalid_flags_witness :
  fst (run sample_host (defaults true true false) []) = 1%Z /\
  snd (run sample_host (defaults true true false) []) <> [] /\
  Forall (fun a => is_error sample_host a = true)
    (snd (run sample_host (defaults true true false) [])).
Proof.
  apply (run_rejects_invalid_flags sample_host (defaults true true false) []).
  reflexivity.
Defined.

Lemma run_writes_first_free_pair_witness :
  exists i,
    (i <= 10000)%N /\
    (("global-client-nomad-1.pem" =
        cert_name (cluster_region (defaults false true false) +:+ "-" +:+
                   role (defaults false true false) +:+ "-" +:+
                   domain (defaults false true false)) i
      /\ 438%N = 438%N) \/
     ("global-client-nomad-1.pem" =
        key_name (cluster_region (defaults false true false) +:+ "-" +:+
                  role (defaults false true false) +:+ "-" +:+
                  domain (defaults false true false)) i
      /\ 438%N = 384%N)) /\
    fileDoesNotExist sample_host "global-client-nomad-1.pem" = true /\
    both_free sample_host
      (cluster_region (defaults false true false) +:+ "-" +:+
       role (defaults false true false) +:+ "-" +:+
       domain (defaults false true false)) i = true /\
    forall j, (j < i)%N ->
      both_free sample_host
        (cluster_region (defaults false true false) +:+ "-" +:+
         role (defaults false true false) +:+ "-" +:+
         domain (defaults false true false)) j = false.
Proof.
  apply (run_writes_first_free_pair sample_host (defaults false true false) []
           "global-client-nomad-1.pem" "PUB" 493 438).
  vm_compute. in_list.
Defined.

Lemma run_gives_up_without_free_pair_witness :
  run full_host (defaults false true false) [] =
    (1%Z, [Ui_Error "Could not find a filename that doesn't already exist"]).
Proof.
  apply (run_gives_up_without_free_pair full_host (defaults false true false) []).
  - reflexivity.
  - intros i Hi. reflexivity.
Defined.

Lemma run_cli_drops_additional_dns_names_witness :
  "cli.global.nomad" =
    "cli." +:+ cluster_region cli_with_names +:+ "." +:+ domain cli_with_names /\
  ["cli.global.nomad"; "localhost"] =
    ["cli." +:+ cluster_region cli_with_names +:+ "." +:+ domain cli_with_names;
     "localhost"] /\
  ["10.0.0.1"] = additional_ips sample_host cli_with_names /\
  @nil ExtKeyUsage = [].
Proof.
  apply (run_cli_drops_additional_dns_names sample_host cli_with_names []
           {| CertOpts_Signer := "KEY" : Signer sample_host;
              CertOpts_CA := "CA";
              CertOpts_Name := "cli.global.nomad";
              CertOpts_Days := 365;
              CertOpts_DNSNames := ["cli.global.nomad"; "localhost"];
              CertOpts_IPAddresses := ["10.0.0.1"] : list (IP sample_host);
              CertOpts_ExtKeyUsage := [] |}).
  - reflexivity.
  - vm_compute. in_list.
Defined.

Lemma run_server_client_names_witness :
  "server.global.nomad" =
    role server_with_names +:+ "." +:+ cluster_region server_with_names +:+ "." +:+
    domain server_with_names /\
  30%Z = days server_with_names /\
  ["extra.example"; "n1.server.global.nomad"; "server.global.nomad"; "localhost"] =
    additional_names sample_host server_with_names ++
    (if server server_with_names && negb (String.eqb (node server_with_names) "")
     then [node server_with_names +:+ ".server." +:+ cluster_region server_with_names
           +:+ "." +:+ domain server_with_names]
     else []) ++
    [role server_with_names +:+ "." +:+ cluster_region server_with_names +:+ "." +:+
     domain server_with_names; "localhost"] /\
  ["10.0.0.1"; "127.0.0.1"] =
    additional_ips sample_host server_with_names ++ [ParseIP sample_host "127.0.0.1"].
Proof.
  apply (run_server_client_names sample_host server_with_names []
           {| CertOpts_Signer := "KEY" : Signer sample_host;
              CertOpts_CA := "CA";
              CertOpts_Name := "server.global.nomad";
              CertOpts_Days := 30;
              CertOpts_DNSNames :=
                ["extra.example"; "n1.server.global.nomad"; "server.global.nomad";
                 "localhost"];
              CertOpts_IPAddresses := ["10.0.0.1"; "127.0.0.1"] : list (IP sample_host);
              CertOpts_ExtKeyUsage := [ExtKeyUsageServerAuth; ExtKeyUsageClientAuth] |}).
  - reflexivity.
  - vm_compute. in_list.
Defined.

Lemma run_reads_files_of_domain_witness :
  List.filter (is_read sample_host)
    (snd (run sample_host (defaults false true false) [])) = [] \/
  (List.filter (is_read sample_host)
     (snd (run sample_host (defaults false true false) [])) =
     [Read (domain (defaults false true false) +:+ "-agent-ca.pem")] /\
   exists err,
     ReadFile sample_host (domain (defaults false true false) +:+ "-agent-ca.pem")
       = Err err) \/
  (List.filter (is_read sample_host)
     (snd (run sample_host (defaults false true false) [])) =
     [Read (domain (defaults false true false) +:+ "-agent-ca.pem");
      Read (domain (defaults false true false) +:+ "-agent-ca-key.pem")] /\
   exists cert,
     ReadFile sample_host (domain (defaults false true false) +:+ "-agent-ca.pem")
       = Ok cert).
Proof.
  apply (run_reads_files_of_domain sample_host (defaults false true false) []
           "-agent-ca.pem" "-agent-ca-key.pem"); reflexivity.
Defined.

Lemma run_reads_plain_paths_witness :
  List.filter (is_read sample_host) (snd (run sample_host client_with_paths [])) = [] \/
  (List.filter (is_read sample_host) (snd (run sample_host client_with_paths [])) =
     [Read (ca client_with_paths)] /\
   exists err, ReadFile sample_host (ca client_with_paths) = Err err) \/
  (List.filter (is_read sample_host) (snd (run sample_host client_with_paths [])) =
     [Read (ca client_with_paths); Read (key client_with_paths)] /\
   exists cert, ReadFile sample_host (ca client_with_paths) = Ok cert).
Proof.
  apply (run_reads_plain_paths sample_host client_with_paths []); reflexivity.
Defined.

(** ** Sample runs *)

(** The key write fails on the sample host: the run returns 1 after it has
    written the certificate of the first free index, 1. *)
Example sample_client_run :
  run sample_host (defaults false true false) [] =
    (1%Z,
     [Read "nomad-agent-ca.pem"; Read "nomad-agent-ca-key.pem";
      Ui_Info "==> Using CA file nomad-agent-ca.pem and CA key nomad-agent-ca-key.pem";
      Generate
        {| CertOpts_Signer := "KEY" : Signer sample_host;
           CertOpts_CA := "CA";
           CertOpts_Name := "client.global.nomad";
           CertOpts_Days := 365;
           CertOpts_DNSNames := ["client.global.nomad"; "localhost"];
           CertOpts_IPAddresses := ["127.0.0.1"] : list (IP sample_host);
           CertOpts_ExtKeyUsage := [ExtKeyUsageClientAuth; ExtKeyUsageServerAuth] |};
      Write "global-client-nomad-1.pem" "PUB" 493 438;
      Ui_Output "==> Client Certificate saved to global-client-nomad-1.pem";
      Write "global-client-nomad-1-key.pem" "PRIV" 493 384;
      Ui_Error "disk full"]).
Proof. vm_compute. reflexivity. Qed.

(** Two arguments, or two roles, are refused before anything is read. *)
Example sample_refusals :
  run sample_host (defaults false false true) ["a"; "b"] =
    (1%Z, [Ui_Error "This command takes up to one argument";
           Ui_Error (commandErrorText sample_host)]) /\
  run sample_host (defaults true true false) [] =
    (1%Z, [Ui_Error "Please provide either -server, -client, or -cli"]).
Proof. vm_compute. split; reflexivity. Qed.

(** Only the first placeholder is replaced. *)
Example Replace1_once :
  Replace1 "x#DOMAIN#y#DOMAIN#" "#DOMAIN#" "nomad" = "xnomady#DOMAIN#".
Proof. reflexivity. Qed.

End TLSFacts.
